(** * RAG backend template: chunking service, RAG orchestrator, HTTP routes

    A shallow embedding of
    - [app/services/chunking_service.py]  (module [Chunking]),
    - [app/services/rag_service.py] and the part of
      [app/services/qdrant_service.py] it calls (module [Rag]),
    - [app/api/routes/chat.py] and [app/api/routes/rag.py] (module [Routes]),
    followed by the properties of these definitions.

    Python integers are [Z]; [Optional[int]] is [option Z]; strings are
    [string] (one [ascii] per character, [len] is [String.length]); a dict
    is a [gmap]; an exception is a constructor of [exn] carried by
    [result]. LangChain, Qdrant and Ollama are not part of the repository:
    they appear as type classes whose methods the embedded code calls. *)

From Stdlib Require Import ZArith QArith_base Ascii String List Bool Lia.
From stdpp Require Import base option list gmap strings pretty.

Local Open Scope string_scope.
Local Open Scope Z_scope.
Local Open Scope list_scope.

(** ** Python preliminaries *)

Module Py.

(** The exceptions raised by the embedded code or by its collaborators. *)
Inductive exn :=
  | TypeError (msg : string)
  | ValueError (msg : string)
  | IndexError
  | KeyError (key : string)
  | ExternalError (msg : string).

Inductive result (A : Type) :=
  | Ok (a : A)
  | Raise (e : exn).
Arguments Ok {A} a.
Arguments Raise {A} e.

(** [x or d] for [x : Optional[int]]: [None] and [0] are falsy. *)
Definition int_or (x : option Z) (d : Z) : Z :=
  match x with
  | Some z => if (z =? 0)%Z then d else z
  | None => d
  end.

(** [if x:] for [x : Optional[int]]. *)
Definition int_truthy (x : option Z) : bool :=
  match x with
  | Some z => negb (z =? 0)%Z
  | None => false
  end.

(** [a // b]: Python floors, as [Z.div] does for every sign of [a] and
    [b]; the embedded code only divides under a guard [b > 0]. *)
Definition floordiv (a b : Z) : Z := (a / b)%Z.

(** [ceil(a / b)] for [b > 0], the rounding the specification names. *)
Definition ceildiv (a b : Z) : Z := (- ((- a) / b))%Z.

(** [len(s)] *)
Definition len (s : string) : Z := Z.of_nat (String.length s).

End Py.
Export Py.

(** ** [app/core/config.py] (not in the repository snapshot): the settings
    object the services read; only the fields used are listed, their
    values are left open. *)

Record Settings := {
  CHUNK_SIZE : Z;
  CHUNK_OVERLAP : Z;
  RETRIEVAL_K : Z
}.

(** ** [chunking_service.py] *)

Module Chunking.

(** The dict returned by [estimate_chunks]. *)
Record Estimate := {
  text_length : Z;
  est_chunk_size : Z;
  est_chunk_overlap : Z;
  estimated_chunks : Z;
  est_strategy : string
}.

(** [ChunkingService.estimate_chunks], lines 196-221. It reads
    [self.settings] and nothing else of the service. *)
Definition estimate_chunks (settings : Settings) (text : string)
    (strategy : string) (chunk_size chunk_overlap : option Z) : Estimate :=
  let chunk_size := int_or chunk_size (CHUNK_SIZE settings) in
  let chunk_overlap := int_or chunk_overlap (CHUNK_OVERLAP settings) in
  let text_length := len text in
  let effective_chunk := chunk_size - chunk_overlap in
  let estimated_chunks :=
    if effective_chunk <=? 0 then 1
    else Z.max 1 (floordiv (text_length - chunk_overlap) effective_chunk) in
  {| text_length := text_length;
     est_chunk_size := chunk_size;
     est_chunk_overlap := chunk_overlap;
     estimated_chunks := estimated_chunks;
     est_strategy := strategy |}.

(** A value of the [recommendations] table of [get_optimal_strategy];
    the keys ["separators"] and ["separator"] exist in some rows only. *)
Record Recommendation := {
  rec_strategy : string;
  rec_chunk_size : Z;
  rec_chunk_overlap : Z;
  rec_separators : option (list string);
  rec_separator : option string;
  rec_reason : string
}.

Definition nl : string := String (Ascii.ascii_of_nat 10) EmptyString.

Definition rec_general : Recommendation :=
  {| rec_strategy := "recursive"; rec_chunk_size := 1000;
     rec_chunk_overlap := 200; rec_separators := None;
     rec_separator := None;
     rec_reason := "Best general-purpose strategy" |}.

(** [recommendations.get(content_type, recommendations["general"])],
    lines 234-275. The table is rebuilt at every call, so the update
    below never reaches a later call. *)
Definition recommendations (content_type : string) : Recommendation :=
  if String.eqb content_type "markdown" then
    {| rec_strategy := "markdown"; rec_chunk_size := 1000;
       rec_chunk_overlap := 200; rec_separators := None;
       rec_separator := None;
       rec_reason := "Preserves markdown structure and headers" |}
  else if String.eqb content_type "html" then
    {| rec_strategy := "html"; rec_chunk_size := 1000;
       rec_chunk_overlap := 200; rec_separators := None;
       rec_separator := None;
       rec_reason := "Preserves HTML structure and semantic tags" |}
  else if String.eqb content_type "code" then
    {| rec_strategy := "recursive"; rec_chunk_size := 1500;
       rec_chunk_overlap := 200;
       rec_separators :=
         Some [nl +:+ nl; nl +:+ "def "; nl +:+ "class "; nl; " "];
       rec_separator := None;
       rec_reason := "Respects code block boundaries" |}
  else if String.eqb content_type "conversation" then
    {| rec_strategy := "character"; rec_chunk_size := 500;
       rec_chunk_overlap := 50; rec_separators := None;
       rec_separator := Some nl;
       rec_reason := "Keeps conversation turns together" |}
  else if String.eqb content_type "structured" then
    {| rec_strategy := "semantic"; rec_chunk_size := 512;
       rec_chunk_overlap := 50; rec_separators := None;
       rec_separator := None;
       rec_reason := "Semantic boundaries for structured data" |}
  else rec_general.

(** [ChunkingService.get_optimal_strategy], lines 223-282. *)
Definition get_optimal_strategy (content_type : string)
    (avg_doc_length : Z) : Recommendation :=
  let rec := recommendations content_type in
  if avg_doc_length <? 500 then
    let chunk_size := Z.min (rec_chunk_size rec) avg_doc_length in
    let chunk_overlap :=
      Z.min (rec_chunk_overlap rec) (floordiv chunk_size 5) in
    {| rec_strategy := rec_strategy rec;
       rec_chunk_size := chunk_size;
       rec_chunk_overlap := chunk_overlap;
       rec_separators := rec_separators rec;
       rec_separator := rec_separator rec;
       rec_reason := rec_reason rec |}
  else rec.

(** *** Documents, the metadata store and the splitter objects

    [Document.metadata] is a dict that [split_text] updates in place, so
    a document holds the address of its dict in a store; two documents
    with the same address share one dict. *)

Inductive value :=
  | VNone
  | VInt (z : Z)
  | VStr (s : string).

Abbreviation heap := (list (gmap string value)).

Record Document := {
  page_content : string;
  metadata : nat
}.

(** The six splitter classes of [langchain_text_splitters] with the
    constructor arguments [_create_splitter] passes. *)
Inductive splitter_kind :=
  | RecursiveCharacterTextSplitter (chunk_size chunk_overlap : Z)
      (separators : list string) (is_separator_regex : bool)
  | CharacterTextSplitter (chunk_size chunk_overlap : Z)
      (separator : string)
  | TokenTextSplitter (chunk_size chunk_overlap : Z)
      (encoding_name : string)
  | MarkdownHeaderTextSplitter
      (headers_to_split_on : list (string * string)) (strip_headers : bool)
  | HTMLHeaderTextSplitter (headers_to_split_on : list (string * string))
  | SentenceTransformersTokenTextSplitter
      (chunk_overlap tokens_per_chunk : Z).

(** A splitter object: [oid] is its identity ([is] in Python). *)
Record splitter := {
  oid : nat;
  kind : splitter_kind
}.

(** The keyword arguments [_create_splitter] looks up with
    [kwargs.get]; any other keyword is never read. *)
Record kwargs := {
  kw_separators : option (list string);
  kw_is_separator_regex : option bool;
  kw_separator : option string;
  kw_encoding_name : option string;
  kw_headers_to_split_on : option (list (string * string));
  kw_strip_headers : option bool;
  kw_tokens_per_chunk : option Z
}.

Definition no_kwargs : kwargs :=
  {| kw_separators := None; kw_is_separator_regex := None;
     kw_separator := None; kw_encoding_name := None;
     kw_headers_to_split_on := None; kw_strip_headers := None;
     kw_tokens_per_chunk := None |}.

(** What [splitter.split_text(text)] of a header splitter returns: the
    code tests [isinstance(chunks[0], Document)]. *)
Inductive chunks :=
  | ChunkDocs (ds : list Document)
  | ChunkStrs (cs : list string).

(** The calls into [langchain_text_splitters]. Each may raise and may
    allocate metadata dicts. *)
Class LangChain := {
  (** [__init__] of the splitter classes *)
  splitter_init : splitter_kind -> result unit;
  (** [MarkdownHeaderTextSplitter.split_text],
      [HTMLHeaderTextSplitter.split_text] *)
  header_split_text : splitter -> string -> heap -> result chunks * heap;
  (** [TextSplitter.split_documents] *)
  lib_split_documents :
    splitter -> list Document -> heap -> result (list Document) * heap
}.

(** The service object ([settings], [_splitters]) together with the
    part of the Python heap the service works on. *)
Record world := {
  settings : Settings;
  _splitters : gmap string splitter;
  next_oid : nat;
  store : heap
}.

Definition set_splitters (f : gmap string splitter -> gmap string splitter)
    (w : world) : world :=
  {| settings := settings w; _splitters := f (_splitters w);
     next_oid := next_oid w; store := store w |}.

Definition set_store (h : heap) (w : world) : world :=
  {| settings := settings w; _splitters := _splitters w;
     next_oid := next_oid w; store := h |}.

(** State and exceptions: an exception keeps the state reached. *)
Definition M (A : Type) : Type := world -> result A * world.

#[global] Instance M_ret : MRet M := λ A a w, (Ok a, w).

#[global] Instance M_bind : MBind M := λ A B f m w,
  match m w with
  | (Ok a, w') => f a w'
  | (Raise e, w') => (Raise e, w')
  end.

Definition raise {A} (e : exn) : M A := λ w, (Raise e, w).
Definition get_world : M world := λ w, (Ok w, w).
Definition modify (f : world -> world) : M unit := λ w, (Ok tt, f w).

Definition lift_heap {A} (f : heap -> result A * heap) : M A := λ w,
  let '(r, h) := f (store w) in (r, set_store h w).

(** A new dict object. *)
Definition alloc (m : gmap string value) : M nat := λ w,
  (Ok (length (store w)), set_store (store w ++ [m])%list w).

(** A new splitter object, after the library constructor accepted the
    arguments. *)
Definition construct `{LangChain} (k : splitter_kind) : M splitter := λ w,
  match splitter_init k with
  | Raise e => (Raise e, w)
  | Ok _ =>
      (Ok {| oid := next_oid w; kind := k |},
       {| settings := settings w; _splitters := _splitters w;
          next_oid := S (next_oid w); store := store w |})
  end.

(** [f"{strategy}_{chunk_size}_{chunk_overlap}"] *)
Definition cache_key (strategy : string) (chunk_size chunk_overlap : Z)
    : string :=
  strategy +:+ "_" +:+ pretty chunk_size +:+ "_" +:+ pretty chunk_overlap.

Definition default_separators : list string :=
  [nl +:+ nl; nl; ". "; ", "; " "; ""].

(** [ChunkingService._create_splitter], lines 53-120. *)
Definition _create_splitter `{LangChain} (strategy : string)
    (chunk_size chunk_overlap : Z) (kw : kwargs) : M splitter :=
  if String.eqb strategy "recursive" then
    construct (RecursiveCharacterTextSplitter chunk_size chunk_overlap
                 (default default_separators (kw_separators kw))
                 (default false (kw_is_separator_regex kw)))
  else if String.eqb strategy "character" then
    construct (CharacterTextSplitter chunk_size chunk_overlap
                 (default (nl +:+ nl) (kw_separator kw)))
  else if String.eqb strategy "token" then
    construct (TokenTextSplitter chunk_size chunk_overlap
                 (default "cl100k_base" (kw_encoding_name kw)))
  else if String.eqb strategy "markdown" then
    let headers_to_split_on :=
      default [("#", "header_1"); ("##", "header_2"); ("###", "header_3")]
              (kw_headers_to_split_on kw) in
    construct (MarkdownHeaderTextSplitter headers_to_split_on
                 (default false (kw_strip_headers kw)))
  else if String.eqb strategy "html" then
    let headers_to_split_on :=
      default [("h1", "header_1"); ("h2", "header_2"); ("h3", "header_3")]
              (kw_headers_to_split_on kw) in
    construct (HTMLHeaderTextSplitter headers_to_split_on)
  else if String.eqb strategy "semantic" then
    construct (SentenceTransformersTokenTextSplitter
                 (Z.min chunk_overlap 50)
                 (default 256 (kw_tokens_per_chunk kw)))
  else raise (ValueError ("Unknown chunking strategy: " +:+ strategy)).

(** [self._splitters[cache_key]] *)
Definition splitters_getitem (cache_key : string) : M splitter := λ w,
  match _splitters w !! cache_key with
  | Some s => (Ok s, w)
  | None => (Raise (KeyError cache_key), w)
  end.

(** [ChunkingService.get_splitter], lines 33-51. *)
Definition get_splitter `{LangChain} (strategy : string)
    (chunk_size chunk_overlap : option Z) (kw : kwargs) : M splitter :=
  w ← get_world;
  let chunk_size := int_or chunk_size (CHUNK_SIZE (settings w)) in
  let chunk_overlap := int_or chunk_overlap (CHUNK_OVERLAP (settings w)) in
  let cache_key := cache_key strategy chunk_size chunk_overlap in
  (if decide (_splitters w !! cache_key = None) then
     s ← _create_splitter strategy chunk_size chunk_overlap kw;
     modify (set_splitters <[cache_key := s]>)
   else mret tt);;
  splitters_getitem cache_key.

(** The metadata dict of a document in a store. *)
Definition metadata_of (h : heap) (d : Document) : gmap string value :=
  default ∅ (h !! metadata d).

(** [d.metadata[key] = v]: the dict at address [l] is updated in place. *)
Definition setitem (l : nat) (key : string) (v : value) (h : heap) : heap :=
  match h !! l with
  | Some m => <[l := <[key := v]> m]> h
  | None => h
  end.

(** [metadata or {}]: the caller's dict when it is given and non-empty,
    otherwise a new empty dict. *)
Definition metadata_or_empty (metadata : option nat) : M nat :=
  w ← get_world;
  match metadata with
  | Some l =>
      match store w !! l with
      | Some m => if decide (m = ∅) then alloc ∅ else mret l
      | None => mret l
      end
  | None => alloc ∅
  end.

(** [strategy in ["markdown", "html"]] *)
Definition is_structural (strategy : string) : bool :=
  String.eqb strategy "markdown" || String.eqb strategy "html".

(** [[Document(page_content=c, metadata=metadata or {}) for c in chunks]],
    line 145: [metadata or {}] is evaluated once per chunk. *)
Fixpoint wrap_strings (metadata : option nat) (cs : list string)
    : M (list Document) :=
  match cs with
  | [] => mret []
  | c :: cs =>
      l ← metadata_or_empty metadata;
      ds ← wrap_strings metadata cs;
      mret ({| page_content := c; metadata := l |} :: ds)
  end.

(** The loop of lines 150-157. *)
Fixpoint second_pass `{LangChain} (recursive_splitter : splitter)
    (chunk_size : Z) (docs : list Document) : M (list Document) :=
  match docs with
  | [] => mret []
  | d :: docs =>
      sub_chunks ←
        (if len (page_content d) >? chunk_size
         then lift_heap (lib_split_documents recursive_splitter [d])
         else mret [d]);
      final_docs ← second_pass recursive_splitter chunk_size docs;
      mret (sub_chunks ++ final_docs)%list
  end.

(** The loop of lines 162-164, from index [i]. *)
Fixpoint stamp (i total : Z) (docs : list Document) (h : heap) : heap :=
  match docs with
  | [] => h
  | d :: docs =>
      stamp (i + 1) total docs
        (setitem (metadata d) "total_chunks" (VInt total)
           (setitem (metadata d) "chunk_index" (VInt i) h))
  end.

(** [ChunkingService.split_text], lines 122-166. [metadata] is the
    address of the caller's dict, or [None]. *)
Definition split_text `{LangChain} (text : string) (strategy : string)
    (chunk_size chunk_overlap : option Z) (metadata : option nat)
    (kw : kwargs) : M (list Document) :=
  splitter ← get_splitter strategy chunk_size chunk_overlap kw;
  l ← metadata_or_empty metadata;
  let doc := {| page_content := text; metadata := l |} in
  docs ←
    (if is_structural strategy then
       chunks ← lift_heap (header_split_text splitter text);
       docs ←
         match chunks with
         | ChunkDocs [] | ChunkStrs [] => raise IndexError
         | ChunkDocs ds => mret ds
         | ChunkStrs cs => wrap_strings metadata cs
         end;
       match chunk_size with
       | Some size =>
           if (size =? 0)%Z then mret docs
           else
             recursive_splitter ←
               get_splitter "recursive" chunk_size chunk_overlap no_kwargs;
             second_pass recursive_splitter size docs
       | None => mret docs
       end
     else lift_heap (lib_split_documents splitter [doc]));
  modify (λ w, set_store (stamp 0 (Z.of_nat (length docs)) docs (store w)) w);;
  mret docs.

(** The loop of lines 181-191. *)
Fixpoint split_each `{LangChain} (documents : list Document)
    (strategy : string) (chunk_size chunk_overlap : option Z) (kw : kwargs)
    : M (list Document) :=
  match documents with
  | [] => mret []
  | doc :: documents =>
      chunks ← split_text (page_content doc) strategy chunk_size
                 chunk_overlap (Some (metadata doc)) kw;
      all_chunks ← split_each documents strategy chunk_size chunk_overlap kw;
      mret (chunks ++ all_chunks)%list
  end.

(** [ChunkingService.split_documents], lines 168-194. *)
Definition split_documents `{LangChain} (documents : list Document)
    (strategy : string) (chunk_size chunk_overlap : option Z) (kw : kwargs)
    : M (list Document) :=
  splitter ← get_splitter strategy chunk_size chunk_overlap kw;
  if is_structural strategy then
    split_each documents strategy chunk_size chunk_overlap kw
  else lift_heap (lib_split_documents splitter documents).

(** *** Any sequence of calls on one service object *)

Inductive call :=
  | CallGetSplitter (strategy : string) (chunk_size chunk_overlap : option Z)
      (kw : kwargs)
  | CallSplitText (text strategy : string) (chunk_size chunk_overlap : option Z)
      (metadata : option nat) (kw : kwargs)
  | CallSplitDocuments (documents : list Document) (strategy : string)
      (chunk_size chunk_overlap : option Z) (kw : kwargs)
  | CallEstimateChunks (text strategy : string)
      (chunk_size chunk_overlap : option Z)
  | CallGetOptimalStrategy (content_type : string) (avg_doc_length : Z).

(** The world after one call, whether it returned or raised. *)
Definition after_call `{LangChain} (c : call) (w : world) : world :=
  match c with
  | CallGetSplitter strategy chunk_size chunk_overlap kw =>
      snd (get_splitter strategy chunk_size chunk_overlap kw w)
  | CallSplitText text strategy chunk_size chunk_overlap metadata kw =>
      snd (split_text text strategy chunk_size chunk_overlap metadata kw w)
  | CallSplitDocuments documents strategy chunk_size chunk_overlap kw =>
      snd (split_documents documents strategy chunk_size chunk_overlap kw w)
  | CallEstimateChunks _ _ _ _ => w
  | CallGetOptimalStrategy _ _ => w
  end.

Definition after_calls `{LangChain} (cs : list call) (w : world) : world :=
  foldl (λ w c, after_call c w) w cs.

(** *** What the embedded code relies on from the library

    [fresh_docs h h' ds]: the call extended the store [h] to [h'] without
    touching an existing dict, and every returned document owns a dict of
    its own among the new ones (LangChain's [create_documents] deep-copies
    the metadata for each chunk; the header splitters build a dict per
    chunk). *)
Definition fresh_docs (h h' : heap) (ds : list Document) : Prop :=
  h `prefix_of` h' ∧
  NoDup (metadata <$> ds) ∧
  Forall (λ d, (length h ≤ metadata d < length h')%nat) ds.

Class LangChainLaws (L : LangChain) : Prop := {
  (** both header splitters return [List[Document]] *)
  header_split_docs : ∀ s text h c h',
    header_split_text s text h = (Ok c, h') →
    ∃ ds, c = ChunkDocs ds ∧ fresh_docs h h' ds;
  split_documents_fresh : ∀ s ds h ds' h',
    lib_split_documents s ds h = (Ok ds', h') → fresh_docs h h' ds'
}.

(** A recursive splitter never returns a chunk longer than its
    [chunk_size]. *)
Definition recursive_bounded (L : LangChain) : Prop :=
  ∀ s ds h ds' h' size overlap seps rx,
    kind s = RecursiveCharacterTextSplitter size overlap seps rx →
    lib_split_documents s ds h = (Ok ds', h') →
    Forall (λ d, len (page_content d) ≤ size) ds'.

(** Every cached splitter under a ["recursive"] key was built for the
    chunk size in the key. *)
Definition recursive_entries_ok (w : world) : Prop :=
  ∀ size overlap s,
    _splitters w !! cache_key "recursive" size overlap = Some s →
    ∃ overlap' seps rx,
      kind s = RecursiveCharacterTextSplitter size overlap' seps rx.

(** [w'] has the settings of [w] and every cache entry of [w]. *)
Definition cache_kept (w w' : world) : Prop :=
  settings w' = settings w ∧
  ∀ key s, _splitters w !! key = Some s → _splitters w' !! key = Some s.

(** Whatever [m] returns or raises, the world it leaves is related by
    [R] to the world it started in. *)
Definition preserves {A} (R : world → world → Prop) (m : M A) : Prop :=
  ∀ w r w', m w = (r, w') → R w w'.

(** A string without the character [_]. *)
Fixpoint no_underscore (s : string) : Prop :=
  match s with
  | EmptyString => True
  | String c s => c ≠ "_"%char ∧ no_underscore s
  end.

(** The chunks of [b] carry [chunk_index] 0, 1, ... in order and
    [total_chunks = len(b)] in the store [h]. *)
Definition numbered (h : heap) (b : list Document) : Prop :=
  ∀ i d, b !! i = Some d →
    metadata_of h d !! "chunk_index" = Some (VInt (Z.of_nat i)) ∧
    metadata_of h d !! "total_chunks" = Some (VInt (Z.of_nat (length b))).

(** What the loop of lines 150-157 makes of one structural chunk [d]:
    [d] alone when it fits [chunk_size], otherwise what
    [recursive_splitter.split_documents([d])] returned. *)
Definition resplit `{LangChain} (recursive_splitter : splitter)
    (chunk_size : Z) (d : Document) (sub_chunks : list Document) : Prop :=
  if len (page_content d) >? chunk_size
  then ∃ h h',
         lib_split_documents recursive_splitter [d] h = (Ok sub_chunks, h')
  else sub_chunks = [d].

(** [blocks] holds, in order, what one [split_text] call per document of
    [documents] returned, the calls being those of the loop of lines
    181-191 and taking the service from [w] to [w']. *)
Fixpoint split_text_runs `{LangChain} (documents : list Document)
    (strategy : string) (chunk_size chunk_overlap : option Z) (kw : kwargs)
    (blocks : list (list Document)) (w w' : world) : Prop :=
  match documents, blocks with
  | [], [] => w' = w
  | doc :: documents, chunks :: blocks =>
      ∃ w1,
        split_text (page_content doc) strategy chunk_size chunk_overlap
          (Some (metadata doc)) kw w = (Ok chunks, w1) ∧
        split_text_runs documents strategy chunk_size chunk_overlap kw
          blocks w1 w'
  | _, _ => False
  end.

(** *** A small library instance to run the service on examples

    Header splitters cut at line feeds and drop empty lines; the other
    splitters cut windows of [chunk_size] characters and copy the
    metadata of the parent document for each window. *)

Fixpoint lines_from (acc : string) (s : string) : list string :=
  match s with
  | EmptyString => [acc]
  | String c s' =>
      if Ascii.eqb c (Ascii.ascii_of_nat 10) then acc :: lines_from "" s'
      else lines_from (acc +:+ String c EmptyString) s'
  end.

Definition nonempty_lines (s : string) : list string :=
  filter (λ l, l ≠ "") (lines_from "" s).

Fixpoint windows (fuel n : nat) (s : string) : list string :=
  match fuel with
  | O => []
  | S fuel =>
      match s with
      | EmptyString => []
      | _ => substring 0 n s
             :: windows fuel n (substring n (String.length s - n) s)
      end
  end.

Definition window_size (k : splitter_kind) : nat :=
  match k with
  | RecursiveCharacterTextSplitter size _ _ _
  | CharacterTextSplitter size _ _
  | TokenTextSplitter size _ _ => Z.to_nat size
  | SentenceTransformersTokenTextSplitter _ tokens => Z.to_nat tokens
  | _ => 0
  end.

Definition pieces (k : splitter_kind) (s : string) : list string :=
  match window_size k with
  | O => []
  | n => windows (String.length s) n s
  end.

(** One new document per piece, each with a new copy of [m]. *)
Fixpoint new_documents (ps : list string) (m : gmap string value) (h : heap)
    : list Document * heap :=
  match ps with
  | [] => ([], h)
  | p :: ps =>
      let '(ds, h') := new_documents ps m (h ++ [m])%list in
      ({| page_content := p; metadata := length h |} :: ds, h')
  end.

Fixpoint window_split_documents (k : splitter_kind) (ds : list Document)
    (h : heap) : list Document * heap :=
  match ds with
  | [] => ([], h)
  | d :: ds =>
      let '(a, h1) :=
        new_documents (pieces k (page_content d)) (default ∅ (h !! metadata d)) h in
      let '(b, h2) := window_split_documents k ds h1 in
      ((a ++ b)%list, h2)
  end.

Definition window_library : LangChain := {|
  splitter_init k :=
    match k with
    | RecursiveCharacterTextSplitter size overlap _ _
    | CharacterTextSplitter size overlap _
    | TokenTextSplitter size overlap _ =>
        if size <? overlap
        then Raise (ValueError "Got a larger chunk overlap than chunk size")
        else Ok tt
    | _ => Ok tt
    end;
  header_split_text s text h :=
    let '(ds, h') := new_documents (nonempty_lines text) ∅ h in
    (Ok (ChunkDocs ds), h');
  lib_split_documents s ds h :=
    let '(ds', h') := window_split_documents (kind s) ds h in (Ok ds', h')
|}.

Definition example_settings : Settings :=
  {| CHUNK_SIZE := 1000; CHUNK_OVERLAP := 200; RETRIEVAL_K := 5 |}.

(** The same library, except that its header splitters return the lines
    as plain strings: the case line 145 of [split_text] provides for. *)
Definition plain_lines_library : LangChain :=
  {| splitter_init := @splitter_init window_library;
     header_split_text s text h := (Ok (ChunkStrs (nonempty_lines text)), h);
     lib_split_documents := @lib_split_documents window_library |}.

(** A store with one non-empty dict, the caller's metadata. *)
Definition tagged_world : world :=
  {| settings := example_settings; _splitters := ∅; next_oid := 0;
     store := [{["source" := VStr "notes.md"]}] |}.

(** Keyword arguments with [separators=[" "]] only. *)
Definition space_separator : kwargs :=
  {| kw_separators := Some [" "]; kw_is_separator_regex := None;
     kw_separator := None; kw_encoding_name := None;
     kw_headers_to_split_on := None; kw_strip_headers := None;
     kw_tokens_per_chunk := None |}.

(** Two documents, each one line long, and a store holding their (empty)
    metadata dicts. *)
Definition two_documents : list Document :=
  [ {| page_content := "# Alpha"; metadata := 0 |};
    {| page_content := "# Beta"; metadata := 1 |} ].

Definition two_documents_world : world :=
  {| settings := example_settings; _splitters := ∅; next_oid := 0;
     store := [∅; ∅] |}.

(** The chunks of the example text ["# ab\ncdefghij"] for
    [chunk_size=4]. *)
Definition example_chunks : list Document :=
  [ {| page_content := "# ab"; metadata := 1 |};
    {| page_content := "cdef"; metadata := 3 |};
    {| page_content := "ghij"; metadata := 4 |} ].

(** A service object right after [ChunkingService.__init__]. *)
Definition new_service (settings : Settings) : world :=
  {| settings := settings; _splitters := ∅; next_oid := 0; store := [] |}.

(** *** Strategies and the splitter classes they stand for *)

(** The strategies [_create_splitter] has a branch for. *)
Definition known_strategy (strategy : string) : bool :=
  String.eqb strategy "recursive" || String.eqb strategy "character"
  || String.eqb strategy "token" || String.eqb strategy "markdown"
  || String.eqb strategy "html" || String.eqb strategy "semantic".

(** [k] is a splitter of the class of [strategy], configured for [size]
    and [overlap] where the class takes them. *)
Definition kind_matches (strategy : string) (size overlap : Z)
    (k : splitter_kind) : Prop :=
  match k with
  | RecursiveCharacterTextSplitter sz ov _ _ =>
      strategy = "recursive" ∧ sz = size ∧ ov = overlap
  | CharacterTextSplitter sz ov _ =>
      strategy = "character" ∧ sz = size ∧ ov = overlap
  | TokenTextSplitter sz ov _ =>
      strategy = "token" ∧ sz = size ∧ ov = overlap
  | MarkdownHeaderTextSplitter _ _ => strategy = "markdown"
  | HTMLHeaderTextSplitter _ => strategy = "html"
  | SentenceTransformersTokenTextSplitter ov _ =>
      strategy = "semantic" ∧ ov = Z.min overlap 50
  end.

(** Every cache entry is a splitter for the triple its key was made
    from. *)
Definition cache_consistent (w : world) : Prop :=
  ∀ strategy size overlap s,
    _splitters w !! cache_key strategy size overlap = Some s →
    kind_matches strategy size overlap (kind s).

End Chunking.

(** ** [rag_service.py], with the calls it makes into
    [qdrant_service.py] and the chat model *)

Module Rag.

Import Chunking(value, VNone, VInt, VStr, nl).

(** A retrieved document; the orchestrator only reads it. *)
Record Document := {
  page_content : string;
  metadata : gmap string value
}.

Inductive message :=
  | SystemMessage (content : string)
  | HumanMessage (content : string)
  | AIMessage (content : string).

(** The retriever [QdrantService.get_retriever] builds:
    [vectorstore.as_retriever(search_type=..., search_kwargs={"k": ...})]. *)
Record Retriever := {
  search_type : string;
  search_k : Z
}.

(** One element of the ["data"] list of a [sources] event. *)
Record Source := {
  src_content : string;
  src_metadata : gmap string value;
  src_score : option value
}.

(** The dicts [query] yields: [{"type": ..., "data": ...}]. *)
Inductive event :=
  | EvSources (data : list Source)
  | EvToken (data : string)
  | EvDone.

Definition type_of (e : event) : string :=
  match e with
  | EvSources _ => "sources"
  | EvToken _ => "token"
  | EvDone => "done"
  end.

(** The external collaborators: the vector store and the chat model. *)
Class Gateways := {
  (** [QdrantService.get_vectorstore]: the LangChain vector store over
      the Qdrant client is there, or its construction raises *)
  get_vectorstore : result unit;
  (** [vectorstore.as_retriever(search_type=, search_kwargs=)]: the
      library accepts the configuration or raises *)
  as_retriever : Retriever → result unit;
  (** [retriever.invoke(question)] *)
  retriever_invoke : Retriever → string → result (list Document);
  (** [chat.astream(messages)]: the contents of the chunks produced, in
      order, and the exception that ends the stream, if any *)
  chat_astream : list message → list string * option exn;
  (** [chat.ainvoke(messages)]: the content of the response *)
  chat_ainvoke : list message → result string;
  (** [vectorstore.max_marginal_relevance_search(query, k=, fetch_k=,
      lambda_mult=)] *)
  max_marginal_relevance_search :
    string → Z → Z → Q → result (list Document);
  (** [vectorstore.similarity_search(query, k=, filter=)] *)
  similarity_search :
    string → Z → option (gmap string value) → result (list Document);
  (** [vectorstore.add_documents(documents, ids=ids)] *)
  add_documents : list Document → option string → result unit
}.

(** What a run does, in order: the events it yields and the calls it
    makes to the collaborators. *)
Inductive action :=
  | Yield (e : event)
  | CallRetriever (r : Retriever) (question : string)
  | CallAstream (messages : list message)
  | CallAinvoke (messages : list message)
  | CallMMR (query : string) (k fetch_k : Z) (lambda_mult : Q)
  | CallSimilaritySearch (query : string) (k : Z)
      (filter : option (gmap string value))
  | CallAddDocuments (documents : list Document) (collection : option string).

(** A run: its actions and how it ended. An exception ends the run; the
    actions before it have happened. *)
Definition Run (A : Type) : Type := list action * result A.

#[global] Instance Run_ret : MRet Run := λ A a, ([], Ok a).

#[global] Instance Run_bind : MBind Run := λ A B f m,
  match m with
  | (t, Ok a) => let '(t', r) := f a in ((t ++ t')%list, r)
  | (t, Raise e) => (t, Raise e)
  end.

Definition yield (e : event) : Run unit := ([Yield e], Ok tt).

Definition calling {A} (a : action) (r : result A) : Run A := ([a], r).

Definition events {A} (r : Run A) : list event :=
  omap (λ a, match a with Yield e => Some e | _ => None end) (fst r).

Definition is_call (a : action) : bool :=
  match a with
  | Yield _ => false
  | _ => true
  end.

Definition gateway_calls {A} (r : Run A) : list action :=
  List.filter is_call (fst r).

(** [RAGService.get_retriever], lines 55-68, with
    [QdrantService.get_retriever], lines 73-101: [query] passes no
    further keyword, so [search_kwargs] is [{"k": k or RETRIEVAL_K}]. *)
Definition get_retriever `{Gateways} (settings : Settings)
    (search_type : string) (k : option Z) : Run Retriever :=
  let retriever :=
    {| search_type := search_type;
       search_k := int_or k (RETRIEVAL_K settings) |} in
  ([], get_vectorstore);;
  ([], as_retriever retriever);;
  mret retriever.

(** Truth value and [str()] of a metadata value. *)
Definition truthy (v : value) : bool :=
  match v with
  | VNone => false
  | VInt z => negb (z =? 0)
  | VStr s => negb (String.eqb s "")
  end.

Definition str (v : value) : string :=
  match v with
  | VNone => "None"
  | VInt z => pretty z
  | VStr s => s
  end.

(** The loop of [_format_docs], lines 286-290, from index [i]. *)
Fixpoint format_from (i : Z) (docs : list Document) : list string :=
  match docs with
  | [] => []
  | doc :: docs =>
      let source_info :=
        match metadata doc !! "source" with
        | Some v => if truthy v then " (source: " +:+ str v +:+ ")" else ""
        | None => ""
        end in
      ("[" +:+ pretty i +:+ "]" +:+ source_info +:+ " " +:+ page_content doc)
        :: format_from (i + 1) docs
  end.

(** [RAGService._format_docs], lines 283-291. *)
Definition _format_docs (docs : list Document) : string :=
  String.concat (nl +:+ nl) (format_from 1 docs).

(** The system text of [_create_qa_prompt] with [{context}] filled in. *)
Definition qa_system (context : string) : string :=
  "Tu es un assistant utile. Réponds à la question en utilisant uniquement le contexte fourni."
  +:+ nl +:+
  "Si tu utilises des informations du contexte, cite la source avec [n]."
  +:+ nl +:+
  "Si le contexte ne contient pas la réponse, dis-le clairement."
  +:+ nl +:+ nl +:+ "Contexte:" +:+ nl +:+ context.

(** [self._qa_prompt.format_messages(context=, input=, chat_history=)] *)
Definition qa_format_messages (context input : string)
    (chat_history : list message) : list message :=
  (SystemMessage (qa_system context) :: chat_history ++ [HumanMessage input])%list.

(** The loop of lines 158-162 over the dicts of [chat_history]. *)
Fixpoint history_messages (chat_history : list (gmap string string))
    : result (list message) :=
  match chat_history with
  | [] => Ok []
  | msg :: rest =>
      let continue (add : list message) :=
        match history_messages rest with
        | Ok ms => Ok (add ++ ms)%list
        | Raise e => Raise e
        end in
      if decide (msg !! "role" = Some "user") then
        match msg !! "content" with
        | Some c => continue [HumanMessage c]
        | None => Raise (KeyError "content")
        end
      else if decide (msg !! "role" = Some "assistant") then
        match msg !! "content" with
        | Some c => continue [AIMessage c]
        | None => Raise (KeyError "content")
        end
      else continue []
  end.

(** [async for chunk in chat.astream(...): if chunk.content: yield ...] *)
Definition stream_tokens `{Gateways} (prompt_messages : list message)
    : Run unit :=
  let '(chunks, failure) := chat_astream prompt_messages in
  (CallAstream prompt_messages
     :: map (λ c, Yield (EvToken c)) (filter (λ c, c ≠ "") chunks),
   match failure with
   | Some e => Raise e
   | None => Ok tt
   end).

Definition source_of (doc : Document) : Source :=
  {| src_content := page_content doc;
     src_metadata := metadata doc;
     src_score := metadata doc !! "score" |}.

(** [RAGService.query], lines 114-180. *)
Definition query `{Gateways} (settings : Settings) (question : string)
    (stream include_sources : bool) (k : option Z) (search_type : string)
    (chat_history : option (list (gmap string string))) : Run unit :=
  retriever ← get_retriever settings search_type k;
  docs ← calling (CallRetriever retriever question)
           (retriever_invoke retriever question);
  (if include_sources then yield (EvSources (map source_of docs))
   else mret tt);;
  let context := _format_docs docs in
  messages ← ([], match chat_history with
                  | Some h => history_messages h
                  | None => Ok []
                  end);
  let prompt_messages := qa_format_messages context question messages in
  (if stream then stream_tokens prompt_messages
   else
     response ← calling (CallAinvoke prompt_messages)
                  (chat_ainvoke prompt_messages);
     yield (EvToken response));;
  yield EvDone.

(** [QdrantService.mmr_search], lines 186-205; an argument left out by
    the caller is [None] here and takes the default of the signature. *)
Definition qdrant_mmr_search `{Gateways} (query : string)
    (k fetch_k : option Z) (lambda_mult : option Q) : Run (list Document) :=
  let k := default 5 k in
  let fetch_k := default 20 fetch_k in
  let lambda_mult := default (1 # 2)%Q lambda_mult in
  ([], get_vectorstore);;
  calling (CallMMR query k fetch_k lambda_mult)
    (max_marginal_relevance_search query k fetch_k lambda_mult).

(** [RAGService.mmr_search], lines 231-252. *)
Definition mmr_search `{Gateways} (query : string)
    (k fetch_k : option Z) (lambda_mult : option Q)
    : Run (list (string * gmap string value)) :=
  let k := default 5 k in
  let fetch_k := default 20 fetch_k in
  let lambda_mult := default (1 # 2)%Q lambda_mult in
  docs ← qdrant_mmr_search query (Some k) (Some fetch_k) (Some lambda_mult);
  mret (map (λ doc, (page_content doc, metadata doc)) docs).

(** [RAGService.search], lines 209-229, with
    [QdrantService.similarity_search]: an empty filter dict is dropped. *)
Definition search `{Gateways} (query : string) (k : option Z)
    (search_type : option string) (filters : option (gmap string value))
    : Run (list (string * gmap string value)) :=
  let k := default 5 k in
  ([], get_vectorstore);;
  let qdrant_filter :=
    match filters with
    | Some f => if decide (f = ∅) then None else Some f
    | None => None
    end in
  docs ← calling (CallSimilaritySearch query k qdrant_filter)
           (similarity_search query k qdrant_filter);
  mret (map (λ doc, (page_content doc, metadata doc)) docs).

(** [RAGService.index_documents], lines 254-264, with
    [QdrantService.add_documents]: one id per document. *)
Definition index_documents `{Gateways} (documents : list Document)
    (collection : option string) : Run Z :=
  ([], get_vectorstore);;
  calling (CallAddDocuments documents collection)
    (add_documents documents collection);;
  mret (Z.of_nat (length documents)).

(** Collaborators that answer from a script, to run the service on
    examples: the retriever returns [docs], the chat model streams
    [chunks] and answers [response] in one piece. *)
Definition scripted (docs : list Document) (chunks : list string)
    (response : string) : Gateways :=
  {| get_vectorstore := Ok tt;
     as_retriever _ := Ok tt;
     retriever_invoke _ _ := Ok docs;
     chat_astream _ := (chunks, None);
     chat_ainvoke _ := Ok response;
     max_marginal_relevance_search _ k _ _ := Ok (take (Z.to_nat k) docs);
     similarity_search _ k _ := Ok (take (Z.to_nat k) docs);
     add_documents _ _ := Ok tt |}.

Definition paris : Document :=
  {| page_content := "Paris is the capital of France.";
     metadata := {["source" := VStr "geo.md"]} |}.

Definition example_gateways : Gateways :=
  scripted [paris] ["Pa"; ""; "ris"] "Paris".

(** A vector store that is down. *)
Definition unavailable : Gateways :=
  {| get_vectorstore := Ok tt;
     as_retriever _ := Ok tt;
     retriever_invoke _ _ := Raise (ExternalError "connection refused");
     chat_astream _ := ([], Some (ExternalError "connection refused"));
     chat_ainvoke _ := Raise (ExternalError "connection refused");
     max_marginal_relevance_search _ _ _ _ :=
       Raise (ExternalError "connection refused");
     similarity_search _ _ _ := Raise (ExternalError "connection refused");
     add_documents _ _ := Raise (ExternalError "connection refused") |}.

(** The list comprehension of [index_texts], lines 273-279, from index
    [i]: [metadatas[i] if metadatas and i < len(metadatas) else {}]. *)
Fixpoint documents_from (i : nat) (texts : list string)
    (metadatas : option (list (gmap string value))) : list Document :=
  match texts with
  | [] => []
  | text :: texts =>
      {| page_content := text;
         metadata :=
           match metadatas with
           | Some ms => default ∅ (ms !! i)
           | None => ∅
           end |}
      :: documents_from (S i) texts metadatas
  end.

(** [RAGService.index_texts], lines 266-281. *)
Definition index_texts `{Gateways} (texts : list string)
    (metadatas : option (list (gmap string value)))
    (collection : option string) : Run Z :=
  index_documents (documents_from 0 texts metadatas) collection.

(** The message one history entry becomes in the loop of lines 158-162,
    if any. *)
Definition to_message (msg : gmap string string) : option message :=
  if decide (msg !! "role" = Some "user") then
    HumanMessage <$> msg !! "content"
  else if decide (msg !! "role" = Some "assistant") then
    AIMessage <$> msg !! "content"
  else None.

(** An entry the loop reads the content of. *)
Definition spoken (msg : gmap string string) : bool :=
  bool_decide (msg !! "role" = Some "user")
  || bool_decide (msg !! "role" = Some "assistant").

(** The ["data"] of the [token] events, in order. *)
Definition token_data (es : list event) : list string :=
  omap (λ e, match e with EvToken data => Some data | _ => None end) es.

End Rag.

(** ** [api/routes/chat.py] and [api/routes/rag.py] *)

Module Routes.

Import Chunking(value).

(** The values the handlers pass to the service methods. *)
Inductive pyval :=
  | PNone
  | PBool (b : bool)
  | PInt (z : Z)
  | PFloat (q : Q)
  | PStr (s : string)
  | PStrList (l : list string)
  | PDict (d : gmap string value)
  | PDictList (l : list (gmap string value))
  | PHistory (l : list (gmap string string))
  | PDocuments (l : list Rag.Document).

(** A parameter of a [def]: its name and its default, if it has one. *)
Record parameter := {
  name : string;
  default_value : option pyval
}.

(** The parameters after [self]; none of the service methods has
    [*args] or [**kwargs]. *)
Definition signature := list parameter.

Definition has_parameter (sig : signature) (kw : string) : bool :=
  existsb (λ p, String.eqb (name p) kw) sig.

(** Python binds the keywords of a call one by one; a keyword that names
    no parameter raises [TypeError]. *)
Fixpoint bind_keywords (fname : string) (sig : signature)
    (kwargs : list (string * pyval)) (env : gmap string pyval)
    : result (gmap string pyval) :=
  match kwargs with
  | [] => Ok env
  | (kw, v) :: kwargs =>
      if has_parameter sig kw
      then bind_keywords fname sig kwargs (<[kw := v]> env)
      else Raise (TypeError
             (fname +:+ "() got an unexpected keyword argument '" +:+ kw +:+ "'"))
  end.

(** Then every parameter still unbound takes its default; without one
    the call raises [TypeError]. *)
Fixpoint fill_defaults (fname : string) (sig : signature)
    (env : gmap string pyval) : result (gmap string pyval) :=
  match sig with
  | [] => Ok env
  | p :: sig =>
      match env !! name p, default_value p with
      | Some _, _ => fill_defaults fname sig env
      | None, Some d => fill_defaults fname sig (<[name p := d]> env)
      | None, None =>
          Raise (TypeError
            (fname +:+ "() missing 1 required positional argument: '"
             +:+ name p +:+ "'"))
      end
  end.

Definition bind (fname : string) (sig : signature)
    (kwargs : list (string * pyval)) : result (gmap string pyval) :=
  match bind_keywords fname sig kwargs ∅ with
  | Ok env => fill_defaults fname sig env
  | Raise e => Raise e
  end.

(** A call [obj.f(kw=v, ...)]: the body runs when the arguments bind. *)
Definition call_method {A} (fname : string) (sig : signature)
    (body : gmap string pyval → Rag.Run A) (kwargs : list (string * pyval))
    : Rag.Run A :=
  match bind fname sig kwargs with
  | Ok env => body env
  | Raise e => ([], Raise e)
  end.

Definition ill_typed {A} : Rag.Run A :=
  ([], Raise (TypeError "argument of a type the service does not handle")).

Definition optional_int (v : pyval) : option (option Z) :=
  match v with
  | PNone => Some None
  | PInt z => Some (Some z)
  | _ => None
  end.

Definition optional_dict (v : pyval) : option (option (gmap string value)) :=
  match v with
  | PNone => Some None
  | PDict d => Some (Some d)
  | _ => None
  end.

Definition optional_history (v : pyval)
    : option (option (list (gmap string string))) :=
  match v with
  | PNone => Some None
  | PHistory h => Some (Some h)
  | _ => None
  end.

Definition optional_str (v : pyval) : option (option string) :=
  match v with
  | PNone => Some None
  | PStr s => Some (Some s)
  | _ => None
  end.

(** [async def query(self, question, stream=True, include_sources=True,
    k=None, search_type="similarity", chat_history=None)],
    rag_service.py lines 114-122. *)
Definition query_signature : signature :=
  [ {| name := "question"; default_value := None |};
    {| name := "stream"; default_value := Some (PBool true) |};
    {| name := "include_sources"; default_value := Some (PBool true) |};
    {| name := "k"; default_value := Some PNone |};
    {| name := "search_type"; default_value := Some (PStr "similarity") |};
    {| name := "chat_history"; default_value := Some PNone |} ].

Definition rag_query `{Rag.Gateways} (settings : Settings)
    : list (string * pyval) → Rag.Run unit :=
  call_method "query" query_signature (λ env,
    match env !! "question", env !! "stream", env !! "include_sources",
          env !! "k" ≫= optional_int, env !! "search_type",
          env !! "chat_history" ≫= optional_history with
    | Some (PStr question), Some (PBool stream), Some (PBool include_sources),
      Some k, Some (PStr search_type), Some chat_history =>
        Rag.query settings question stream include_sources k search_type
          chat_history
    | _, _, _, _, _, _ => ill_typed
    end).

(** [async def index_documents(self, documents, collection=None)],
    rag_service.py lines 254-258. *)
Definition index_documents_signature : signature :=
  [ {| name := "documents"; default_value := None |};
    {| name := "collection"; default_value := Some PNone |} ].

Definition rag_index_documents `{Rag.Gateways}
    : list (string * pyval) → Rag.Run Z :=
  call_method "index_documents" index_documents_signature (λ env,
    match env !! "documents", env !! "collection" ≫= optional_str with
    | Some (PDocuments documents), Some collection =>
        Rag.index_documents documents collection
    | _, _ => ill_typed
    end).

(** [async def search(self, query, k=5, search_type="similarity",
    filters=None)], rag_service.py lines 209-215. *)
Definition search_signature : signature :=
  [ {| name := "query"; default_value := None |};
    {| name := "k"; default_value := Some (PInt 5) |};
    {| name := "search_type"; default_value := Some (PStr "similarity") |};
    {| name := "filters"; default_value := Some PNone |} ].

Definition rag_search `{Rag.Gateways}
    : list (string * pyval) → Rag.Run (list (string * gmap string value)) :=
  call_method "search" search_signature (λ env,
    match env !! "query", env !! "k", env !! "search_type",
          env !! "filters" ≫= optional_dict with
    | Some (PStr query), Some (PInt k), Some (PStr search_type), Some filters =>
        Rag.search query (Some k) (Some search_type) filters
    | _, _, _, _ => ill_typed
    end).

Definition of_option {A} (f : A → pyval) (o : option A) : pyval :=
  match o with
  | Some a => f a
  | None => PNone
  end.

(** [ChatRequest], schemas/chat.py lines 8-13. *)
Record ChatRequest := {
  message : string;
  conversation_id : option string;
  include_sources : bool;
  filters : option (gmap string value)
}.

(** [chat], chat.py lines 14-36: the body of the streaming response is
    [generate()], one frame per event of [rag.query(...)]. The result is
    the frames produced and how the generator ended. *)
Definition chat `{Rag.Gateways} (settings : Settings) (request : ChatRequest)
    : list Rag.event * result unit :=
  let run :=
    rag_query settings
      [ ("question", PStr (message request));
        ("include_sources", PBool (include_sources request));
        ("filters", of_option PDict (filters request)) ] in
  (Rag.events run, snd run).

(** The call of [chat_sync], chat.py lines 48-52. *)
Definition chat_sync_query `{Rag.Gateways} (settings : Settings)
    (request : ChatRequest) : Rag.Run unit :=
  rag_query settings
    [ ("question", PStr (message request));
      ("include_sources", PBool (include_sources request));
      ("stream", PBool false) ].

(** [IndexRequest] and [SearchRequest], rag.py lines 13-23. *)
Record IndexRequest := {
  texts : list string;
  metadatas : option (list (gmap string value));
  collection : option string
}.

Record SearchRequest := {
  sr_query : string;
  sr_k : Z;
  score_threshold : option Q;
  sr_filters : option (gmap string value)
}.

(** [index_documents], rag.py lines 33-44:
    [{"indexed": count, "collection": request.collection or "default"}]. *)
Definition index_documents `{Rag.Gateways} (request : IndexRequest)
    : Rag.Run (Z * string) :=
  count ← rag_index_documents
             [ ("texts", PStrList (texts request));
               ("metadatas", of_option PDictList (metadatas request));
               ("collection", of_option PStr (collection request)) ];
  mret (count,
        match collection request with
        | Some c => if String.eqb c "" then "default" else c
        | None => "default"
        end).

(** [search], rag.py lines 47-59. *)
Definition search `{Rag.Gateways} (request : SearchRequest)
    : Rag.Run (list (string * gmap string value)) :=
  rag_search
    [ ("query", PStr (sr_query request));
      ("k", PInt (sr_k request));
      ("score_threshold", of_option PFloat (score_threshold request));
      ("filters", of_option PDict (sr_filters request)) ].

End Routes.

(** ** [qdrant_service.py]: the service object and its cached vector
    store *)

Module Qdrant.

(** The settings field the methods below read. *)
Record QdrantSettings := {
  QDRANT_COLLECTION : string
}.

(** A [QdrantVectorStore] object: what it was constructed with, and its
    identity. An embeddings object is known by its identity. *)
Record VectorStore := {
  collection_name : string;
  embedding : nat;
  store_oid : nat
}.

(** The attributes of a [QdrantService] the methods below use, and the
    counter the identities of new objects come from. *)
Record service := {
  settings : QdrantSettings;
  _vectorstore : option VectorStore;
  _embeddings : option nat;
  next_oid : nat
}.

(** The Qdrant clients and the LangChain constructor. *)
Class Client := {
  (** [QdrantVectorStore(client=, collection_name=, embedding=)] *)
  vectorstore_init : string → nat → result unit;
  (** [async_client.get_collections()]: the names *)
  get_collections : result (list string);
  (** [async_client.create_collection(collection_name=, vectors_config=
      VectorParams(size=, distance=COSINE))] *)
  create_collection : string → Z → result unit;
  (** [async_client.delete_collection(name)] *)
  client_delete_collection : string → result unit
}.

(** What a method asked of the client, in order. *)
Inductive request :=
  | GetCollections
  | CreateCollection (name : string) (size : Z)
  | DeleteCollection (name : string).

Definition Q (A : Type) : Type := service → result A * service.

#[global] Instance Q_ret : MRet Q := λ A a s, (Ok a, s).

#[global] Instance Q_bind : MBind Q := λ A B f m s,
  match m s with
  | (Ok a, s') => f a s'
  | (Raise e, s') => (Raise e, s')
  end.

(** [x or d] for [x : Optional[str]]: [None] and [""] are falsy. *)
Definition str_or (x : option string) (d : string) : string :=
  match x with
  | Some v => if String.eqb v "" then d else v
  | None => d
  end.

(** [QdrantService.set_embeddings], lines 44-48. *)
Definition set_embeddings (embeddings : nat) : Q unit := λ s,
  (Ok tt,
   {| settings := settings s; _vectorstore := None;
      _embeddings := Some embeddings; next_oid := next_oid s |}).

(** [QdrantService.get_vectorstore], lines 50-71. An embeddings object
    is truthy, so [embeddings or self._embeddings] is [embeddings] when
    one is passed. *)
Definition get_vectorstore `{Client} (collection : option string)
    (embeddings : option nat) : Q VectorStore := λ s,
  let collection := str_or collection (QDRANT_COLLECTION (settings s)) in
  let emb :=
    match embeddings with
    | Some e => Some e
    | None => _embeddings s
    end in
  match emb with
  | None =>
      (Raise (ValueError
         "Embeddings not set. Call set_embeddings() first or pass embeddings parameter."),
       s)
  | Some emb =>
      match _vectorstore s, embeddings with
      | Some vs, None => (Ok vs, s)
      | _, _ =>
          match vectorstore_init collection emb with
          | Raise e => (Raise e, s)
          | Ok _ =>
              let vs := {| collection_name := collection; embedding := emb;
                           store_oid := next_oid s |} in
              (Ok vs,
               {| settings := settings s; _vectorstore := Some vs;
                  _embeddings := _embeddings s; next_oid := S (next_oid s) |})
          end
      end
  end.

(** [QdrantService.delete_collection], lines 271-277. *)
Definition delete_collection `{Client} (collection_name : string)
    : Q unit := λ s,
  match client_delete_collection collection_name with
  | Raise e => (Raise e, s)
  | Ok _ =>
      (Ok tt,
       match _vectorstore s with
       | Some _ =>
           if String.eqb collection_name (QDRANT_COLLECTION (settings s))
           then {| settings := settings s; _vectorstore := None;
                   _embeddings := _embeddings s; next_oid := next_oid s |}
           else s
       | None => s
       end)
  end.

(** [QdrantService.ensure_collection], lines 209-227: the requests made
    to the client, and how the call ended. [vector_size] left out is
    768. *)
Definition ensure_collection `{Client} (collection : option string)
    (vector_size : option Z) (s : service) : list request * result unit :=
  let collection := str_or collection (QDRANT_COLLECTION (settings s)) in
  let vector_size := default 768 vector_size in
  match get_collections with
  | Raise e => ([GetCollections], Raise e)
  | Ok names =>
      let exists_ := existsb (String.eqb collection) names in
      if negb exists_ then
        ([GetCollections; CreateCollection collection vector_size],
         create_collection collection vector_size)
      else ([GetCollections], Ok tt)
  end.

(** A service right after [QdrantService.__init__]. *)
Definition new_service (settings : QdrantSettings) : service :=
  {| settings := settings; _vectorstore := None; _embeddings := None;
     next_oid := 0 |}.

(** A client that accepts everything and lists the given collections. *)
Definition listing (names : list string) : Client :=
  {| vectorstore_init _ _ := Ok tt;
     get_collections := Ok names;
     create_collection _ _ := Ok tt;
     client_delete_collection _ := Ok tt |}.

Definition example_settings : QdrantSettings :=
  {| QDRANT_COLLECTION := "documents" |}.

End Qdrant.

(** ** [ollama_service.py]: [generate] *)

Module Ollama.

Import Rag(message, SystemMessage, HumanMessage, Gateways, chat_astream,
           chat_ainvoke).

(** The message list [_stream_generate] and [_invoke] build, lines
    88-91 and 103-106: [if system:] drops [None] and [""]. *)
Definition build_messages (prompt : string) (system : option string)
    : list message :=
  match system with
  | Some text =>
      if String.eqb text "" then [] else [SystemMessage text]
  | None => []
  end ++ [HumanMessage prompt].

(** [OllamaService.generate], lines 68-80, with [_stream_generate] and
    [_invoke]: the messages sent to the chat model, the strings yielded
    and how the generator ended. *)
Definition generate `{Gateways} (prompt : string) (system : option string)
    (stream : bool) : list message * list string * result unit :=
  let messages := build_messages prompt system in
  if stream then
    let '(chunks, failure) := chat_astream messages in
    (messages, filter (λ c, c ≠ "") chunks,
     match failure with
     | Some e => Raise e
     | None => Ok tt
     end)
  else
    match chat_ainvoke messages with
    | Ok response => (messages, [response], Ok tt)
    | Raise e => (messages, [], Raise e)
    end.

End Ollama.

(** ** [chat_sync] and the response schema *)

Module ChatSync.

Import Chunking(value).
Import Routes.

(** The dict [query] builds for a source, lines 143-147: keys
    ["content"], ["metadata"] and ["score"]. *)
Definition source_dict (s : Rag.Source) : gmap string pyval :=
  {[ "content" := PStr (Rag.src_content s);
     "metadata" := PDict (Rag.src_metadata s);
     "score" := match Rag.src_score s with
                | Some (Chunking.VInt z) => PInt z
                | Some (Chunking.VStr t) => PStr t
                | Some Chunking.VNone | None => PNone
                end ]}.

(** [Source], schemas/chat.py lines 24-29. *)
Record Source := {
  id : string;
  content : string;
  score : Q;
  metadata : gmap string value
}.

(** What pydantic does with a dict that has all the required fields of
    [Source] (type checks and coercions) is the library's. *)
Class Pydantic := {
  coerce_source : gmap string pyval → result Source
}.

(** Building a [Source] from a dict, as [ChatResponse(sources=[...])]
    does for each element: [id], [content] and [score] are declared
    without a default, so each must be a key of the dict; a missing one
    is pydantic's [ValidationError], a [ValueError]. *)
Definition validate_source `{Pydantic} (d : gmap string pyval)
    : result Source :=
  match d !! "id", d !! "content", d !! "score" with
  | Some _, Some _, Some _ => coerce_source d
  | None, _, _ => Raise (ValueError "sources: id: Field required")
  | _, None, _ => Raise (ValueError "sources: content: Field required")
  | _, _, None => Raise (ValueError "sources: score: Field required")
  end.

Fixpoint validate_sources `{Pydantic} (ds : list (gmap string pyval))
    : result (list Source) :=
  match ds with
  | [] => Ok []
  | d :: ds =>
      match validate_source d with
      | Raise e => Raise e
      | Ok s =>
          match validate_sources ds with
          | Raise e => Raise e
          | Ok ss => Ok (s :: ss)
          end
      end
  end.

(** [ChatResponse], schemas/chat.py lines 32-42, without [created_at]
    (the clock). *)
Record ChatResponse := {
  response : string;
  sources : list Source;
  conversation_id : option string
}.

(** The loop of [chat_sync], chat.py lines 45-56, over the events
    yielded: the last [sources] data and the joined [token] data. *)
Fixpoint accumulate (es : list Rag.event) (response_text : string)
    (sources : list Rag.Source) : string * list Rag.Source :=
  match es with
  | [] => (response_text, sources)
  | Rag.EvSources data :: es => accumulate es response_text data
  | Rag.EvToken data :: es => accumulate es (response_text +:+ data) sources
  | Rag.EvDone :: es => accumulate es response_text sources
  end.

(** [chat_sync], chat.py lines 39-62. *)
Definition chat_sync `{Rag.Gateways} `{Pydantic} (settings : Settings)
    (request : ChatRequest) : result ChatResponse :=
  let run := chat_sync_query settings request in
  match snd run with
  | Raise e => Raise e
  | Ok _ =>
      let '(response_text, sources) := accumulate (Rag.events run) "" [] in
      match validate_sources (map source_dict sources) with
      | Raise e => Raise e
      | Ok sources =>
          Ok {| response := response_text; sources := sources;
                conversation_id := Routes.conversation_id request |}
      end
  end.

End ChatSync.

(** * Properties *)

(** ** Estimates and recommendations *)

Section Estimates.
Import Chunking.

Lemma int_or_some_nonzero z d : z ≠ 0 → int_or (Some z) d = z.
Proof. intros Hz. unfold int_or. destruct (Z.eqb_spec z 0); congruence. Qed.

(** On a text of 10 characters with [chunk_size=5], [chunk_overlap=1] the
    closed form with [ceil] gives 3; [estimate_chunks] returns 2. *)
Lemma estimate_chunks_not_ceil :
  let r := estimate_chunks example_settings "abcdefghij" "recursive"
             (Some 5) (Some 1) in
  est_chunk_size r > est_chunk_overlap r ∧
  Z.max 1 (ceildiv (text_length r - est_chunk_overlap r)
                   (est_chunk_size r - est_chunk_overlap r)) = 3 ∧
  estimated_chunks r = 2.
Proof. vm_compute. repeat split. Qed.

(** C4 (amended). [estimate_chunks] computes its estimate from the
    lengths alone: with [size] and [overlap] the values in effect (an
    argument that is [None] or [0] is replaced by the setting), the
    estimate is [max(1, floor((len(text) - overlap) / (size - overlap)))]
    when [size > overlap], and 1 when [overlap >= size]; the call is not
    given the splitter cache nor the library, and as a call on the
    service it leaves the service as it was. *)
Theorem estimate_chunks_floor (settings : Settings) (text strategy : string)
    (chunk_size chunk_overlap : option Z) :
  let r := estimate_chunks settings text strategy chunk_size chunk_overlap in
  let size := int_or chunk_size (CHUNK_SIZE settings) in
  let overlap := int_or chunk_overlap (CHUNK_OVERLAP settings) in
  text_length r = len text ∧
  (size > overlap →
   estimated_chunks r = Z.max 1 ((len text - overlap) / (size - overlap))) ∧
  (overlap >= size → estimated_chunks r = 1) ∧
  (∀ (L : LangChain) (w : world),
     after_call (CallEstimateChunks text strategy chunk_size chunk_overlap) w
     = w).
Proof.
  cbn zeta. unfold estimate_chunks, floordiv. cbn [text_length estimated_chunks].
  split; [reflexivity|]. split; [|split].
  - intros Hgt. destruct (Z.leb_spec
      (int_or chunk_size (CHUNK_SIZE settings)
       - int_or chunk_overlap (CHUNK_OVERLAP settings)) 0); [lia|reflexivity].
  - intros Hge. destruct (Z.leb_spec
      (int_or chunk_size (CHUNK_SIZE settings)
       - int_or chunk_overlap (CHUNK_OVERLAP settings)) 0); [reflexivity|lia].
  - reflexivity.
Qed.

Lemma estimate_chunks_floor_witness :
  estimated_chunks
    (estimate_chunks example_settings "abcdefghij" "recursive"
       (Some 5) (Some 1)) = 2
  ∧ estimated_chunks
      (estimate_chunks example_settings "abcdefghij" "recursive"
         (Some 5) (Some 7)) = 1.
Proof.
  split.
  - destruct (estimate_chunks_floor example_settings "abcdefghij" "recursive"
                (Some 5) (Some 1)) as (_ & Hfloor & _ & _).
    rewrite Hfloor; [reflexivity | vm_compute; reflexivity].
  - destruct (estimate_chunks_floor example_settings "abcdefghij" "recursive"
                (Some 5) (Some 7)) as (_ & _ & Hone & _).
    apply Hone. vm_compute. discriminate.
Defined.

(** For a conversation of average length 400 the overlap stays at the
    50 of the table: it is not [chunk_size / 5 = 80]. *)
Lemma get_optimal_strategy_overlap_capped :
  let r := get_optimal_strategy "conversation" 400 in
  400 < 500 ∧ rec_chunk_size r = 400 ∧
  rec_chunk_overlap r = 50 ∧ rec_chunk_size r / 5 = 80.
Proof. vm_compute. repeat split. Qed.

Lemma recommendations_size (content_type : string) :
  500 ≤ rec_chunk_size (recommendations content_type).
Proof.
  unfold recommendations.
  repeat (destruct (String.eqb content_type _)); cbn; lia.
Qed.

Lemma recommendations_overlap (content_type : string) :
  rec_chunk_overlap (recommendations content_type) = 200 ∨
  (rec_chunk_overlap (recommendations content_type) = 50 ∧
   (content_type = "conversation" ∨ content_type = "structured")).
Proof.
  unfold recommendations.
  destruct (String.eqb_spec content_type "markdown"); [by left|].
  destruct (String.eqb_spec content_type "html"); [by left|].
  destruct (String.eqb_spec content_type "code"); [by left|].
  destruct (String.eqb_spec content_type "conversation"); [right; auto|].
  destruct (String.eqb_spec content_type "structured"); [right; auto|].
  by left.
Qed.

(** C6 (amended). For every [content_type] and [avg_doc_length < 500],
    [get_optimal_strategy] returns [chunk_size = avg_doc_length] and
    [chunk_overlap = min(overlap of the table row, chunk_size // 5)]: this
    is [chunk_size // 5] for every content type except ["conversation"]
    and ["structured"], and for these two as long as
    [avg_doc_length < 255]; otherwise it is their table overlap 50. The
    two examples of the specification hold. *)
Theorem get_optimal_strategy_shrink (content_type : string)
    (avg_doc_length : Z) :
  let r := get_optimal_strategy content_type avg_doc_length in
  (avg_doc_length < 500 →
     rec_chunk_size r = avg_doc_length ∧
     rec_chunk_overlap r =
       Z.min (rec_chunk_overlap (recommendations content_type))
             (rec_chunk_size r / 5) ∧
     (content_type ≠ "conversation" → content_type ≠ "structured" →
      rec_chunk_overlap r = rec_chunk_size r / 5) ∧
     (avg_doc_length < 255 → rec_chunk_overlap r = rec_chunk_size r / 5) ∧
     (content_type = "conversation" ∨ content_type = "structured" →
      255 ≤ avg_doc_length → rec_chunk_overlap r = 50)) ∧
  (let m := get_optimal_strategy "markdown" 2000 in
   rec_strategy m = "markdown" ∧ rec_chunk_size m = 1000 ∧
   rec_chunk_overlap m = 200) ∧
  rec_chunk_size (get_optimal_strategy "general" 200) ≤ 200.
Proof.
  cbn zeta. split; [|split; [by vm_compute|by vm_compute]].
  intros Hlt. unfold get_optimal_strategy, floordiv.
  destruct (Z.ltb_spec avg_doc_length 500); [|lia].
  cbn [rec_chunk_size rec_chunk_overlap].
  pose proof (recommendations_size content_type) as Hsize.
  assert (Hmin : Z.min (rec_chunk_size (recommendations content_type))
                       avg_doc_length = avg_doc_length) by lia.
  rewrite Hmin. split; [reflexivity|]. split; [reflexivity|].
  assert (Hq : avg_doc_length / 5 ≤ 99)
    by (apply Z.lt_succ_r, Z.div_lt_upper_bound; lia).
  destruct (recommendations_overlap content_type) as [H200|[H50 Hct]];
    [rewrite H200|rewrite H50].
  - split; [lia|]. split; [lia|].
    intros [->| ->]; vm_compute in H200; discriminate.
  - split; [intros; destruct Hct; congruence|]. split.
    + intros Hsmall.
      assert (avg_doc_length / 5 ≤ 50)
        by (apply Z.lt_succ_r, Z.div_lt_upper_bound; lia).
      lia.
    + intros _ Hbig.
      assert (51 ≤ avg_doc_length / 5) by (apply Z.div_le_lower_bound; lia).
      lia.
Qed.

Lemma get_optimal_strategy_shrink_witness :
  rec_chunk_size (get_optimal_strategy "general" 200) = 200 ∧
  rec_chunk_overlap (get_optimal_strategy "general" 200) = 40.
Proof.
  destruct (get_optimal_strategy_shrink "general" 200)
    as ((Hsize & _ & Hfifth & _) & _); [lia|].
  split; [exact Hsize|]. rewrite Hfifth; [reflexivity|discriminate..].
Defined.

End Estimates.

(** ** The splitter cache *)

Section SplitterCache.
Import Chunking.
Context `{L : LangChain}.

Ltac run_monad :=
  unfold mbind, M_bind, mret, M_ret, get_world, modify, raise, lift_heap,
    alloc, splitters_getitem in *; cbn [fst snd] in *.

Lemma cache_kept_refl w : cache_kept w w.
Proof. by split. Qed.

Lemma cache_kept_trans w1 w2 w3 :
  cache_kept w1 w2 → cache_kept w2 w3 → cache_kept w1 w3.
Proof. intros [Hs Hc] [Hs' Hc']. split; [congruence|eauto]. Qed.

Lemma cache_kept_set_store h w : cache_kept w (set_store h w).
Proof. by split. Qed.

(** Constructing a splitter touches neither the cache nor the store. *)
Lemma construct_world k w r w' :
  construct k w = (r, w') →
  settings w' = settings w ∧ _splitters w' = _splitters w ∧
  store w' = store w.
Proof.
  unfold construct. destruct (splitter_init k); intros [= <- <-]; by cbn.
Qed.

Lemma construct_kind k w s w' : construct k w = (Ok s, w') → kind s = k.
Proof.
  unfold construct. destruct (splitter_init k); [|done]. by intros [= <- <-].
Qed.

Lemma _create_splitter_world strategy chunk_size chunk_overlap kw w r w' :
  _create_splitter strategy chunk_size chunk_overlap kw w = (r, w') →
  settings w' = settings w ∧ _splitters w' = _splitters w ∧
  store w' = store w.
Proof.
  unfold _create_splitter.
  repeat (destruct (String.eqb strategy _); [apply construct_world|]).
  by intros [= <- <-].
Qed.

(** The two ways through [get_splitter]. *)
Lemma get_splitter_hit strategy chunk_size chunk_overlap kw w s :
  _splitters w !! cache_key strategy
      (int_or chunk_size (CHUNK_SIZE (settings w)))
      (int_or chunk_overlap (CHUNK_OVERLAP (settings w))) = Some s →
  get_splitter strategy chunk_size chunk_overlap kw w = (Ok s, w).
Proof.
  intros Hin. unfold get_splitter. run_monad.
  destruct (decide _) as [Hnone|_]; [congruence|].
  by rewrite Hin.
Qed.

Lemma get_splitter_miss strategy chunk_size chunk_overlap kw w :
  let size := int_or chunk_size (CHUNK_SIZE (settings w)) in
  let overlap := int_or chunk_overlap (CHUNK_OVERLAP (settings w)) in
  _splitters w !! cache_key strategy size overlap = None →
  get_splitter strategy chunk_size chunk_overlap kw w =
    match _create_splitter strategy size overlap kw w with
    | (Ok s, w') =>
        (Ok s, set_splitters <[cache_key strategy size overlap := s]> w')
    | (Raise e, w') => (Raise e, w')
    end.
Proof.
  cbn zeta. intros Hnone. unfold get_splitter. run_monad.
  destruct (decide _) as [_|Hin]; [|congruence].
  destruct (_create_splitter _ _ _ _ w) as [[s|e] w'] eqn:Hcreate;
    [|reflexivity].
  cbn. by rewrite lookup_insert_eq.
Qed.

Lemma get_splitter_world strategy chunk_size chunk_overlap kw w r w' :
  get_splitter strategy chunk_size chunk_overlap kw w = (r, w') →
  cache_kept w w' ∧ store w' = store w.
Proof.
  destruct (_splitters w !! cache_key strategy
              (int_or chunk_size (CHUNK_SIZE (settings w)))
              (int_or chunk_overlap (CHUNK_OVERLAP (settings w))))
    as [s|] eqn:Hkey.
  - rewrite (get_splitter_hit _ _ _ _ _ _ Hkey). intros [= <- <-].
    split; [apply cache_kept_refl|reflexivity].
  - rewrite (get_splitter_miss _ _ _ _ _ Hkey).
    destruct (_create_splitter _ _ _ _ w) as [[s|e] w1] eqn:Hcreate;
      destruct (_create_splitter_world _ _ _ _ _ _ _ Hcreate)
        as (Hset & Hcache & Hstore); intros [= <- <-].
    + split; [|done]. split; [done|]. intros key s' Hin. cbn.
      rewrite Hcache. destruct (decide (cache_key strategy
          (int_or chunk_size (CHUNK_SIZE (settings w)))
          (int_or chunk_overlap (CHUNK_OVERLAP (settings w))) = key))
        as [<-|Hne]; [congruence|].
      by rewrite lookup_insert_ne.
    + split; [|done]. split; [done|]. intros key s' Hin. by rewrite Hcache.
Qed.

(** A successful call leaves its result in the cache under its key. *)
Lemma get_splitter_cached_after strategy chunk_size chunk_overlap kw w s w' :
  get_splitter strategy chunk_size chunk_overlap kw w = (Ok s, w') →
  _splitters w' !! cache_key strategy
      (int_or chunk_size (CHUNK_SIZE (settings w)))
      (int_or chunk_overlap (CHUNK_OVERLAP (settings w))) = Some s.
Proof.
  destruct (_splitters w !! cache_key strategy
              (int_or chunk_size (CHUNK_SIZE (settings w)))
              (int_or chunk_overlap (CHUNK_OVERLAP (settings w))))
    as [s0|] eqn:Hkey.
  - rewrite (get_splitter_hit _ _ _ _ _ _ Hkey). by intros [= <- <-].
  - rewrite (get_splitter_miss _ _ _ _ _ Hkey).
    destruct (_create_splitter _ _ _ _ w) as [[s1|e] w1]; intros [= <- <-].
    cbn. by rewrite lookup_insert_eq.
Qed.

End SplitterCache.

(** A relation between worlds that holds across [get_splitter] and across
    every update of the store holds across every call on the service. *)
Section Preserved.
Import Chunking.
Context `{L : LangChain}.
Variable R : world → world → Prop.
Hypothesis R_refl : ∀ w, R w w.
Hypothesis R_trans : ∀ w1 w2 w3, R w1 w2 → R w2 w3 → R w1 w3.
Hypothesis R_set_store : ∀ h w, R w (set_store h w).
Hypothesis R_get_splitter :
  ∀ strategy chunk_size chunk_overlap kw,
    preserves R (get_splitter strategy chunk_size chunk_overlap kw).

Lemma preserves_bind {A B} (m : M A) (f : A → M B) :
  preserves R m → (∀ a, preserves R (f a)) → preserves R (m ≫= f).
Proof.
  intros Hm Hf w r w'. unfold mbind, M_bind.
  destruct (m w) as [[a|e] w1] eqn:Hrun.
  - intros Hcont. eapply R_trans; [by eapply Hm|by eapply Hf].
  - intros [= <- <-]. by eapply Hm.
Qed.

Lemma preserves_ret {A} (a : A) : preserves R (mret a).
Proof. intros w r w' [= <- <-]. apply R_refl. Qed.

Lemma preserves_raise {A} (e : exn) : preserves R (@raise A e).
Proof. intros w r w' [= <- <-]. apply R_refl. Qed.

Lemma preserves_get_world : preserves R get_world.
Proof. intros w r w' [= <- <-]. apply R_refl. Qed.

Lemma preserves_lift_heap {A} (f : heap → result A * heap) :
  preserves R (lift_heap f).
Proof.
  intros w r w'. unfold lift_heap. destruct (f (store w)) as [r1 h].
  intros [= <- <-]. apply R_set_store.
Qed.

Lemma preserves_alloc m : preserves R (alloc m).
Proof. intros w r w' [= <- <-]. apply R_set_store. Qed.

Lemma preserves_metadata_or_empty metadata :
  preserves R (metadata_or_empty metadata).
Proof.
  unfold metadata_or_empty. apply preserves_bind; [apply preserves_get_world|].
  intros w. destruct metadata as [l|]; [|apply preserves_alloc].
  destruct (store w !! l) as [m|]; [|apply preserves_ret].
  destruct (decide _); [apply preserves_alloc|apply preserves_ret].
Qed.

Lemma preserves_wrap_strings metadata cs :
  preserves R (wrap_strings metadata cs).
Proof.
  induction cs as [|c cs IH]; cbn [wrap_strings]; [apply preserves_ret|].
  apply preserves_bind; [apply preserves_metadata_or_empty|]. intros l.
  apply preserves_bind; [apply IH|]. intros ds. apply preserves_ret.
Qed.

Lemma preserves_second_pass rs size docs :
  preserves R (second_pass rs size docs).
Proof.
  induction docs as [|d docs IH]; cbn [second_pass]; [apply preserves_ret|].
  apply preserves_bind.
  - destruct (_ >? _); [apply preserves_lift_heap|apply preserves_ret].
  - intros sub. apply preserves_bind; [apply IH|].
    intros ?. apply preserves_ret.
Qed.

Lemma preserves_split_text text strategy chunk_size chunk_overlap metadata kw :
  preserves R
    (split_text text strategy chunk_size chunk_overlap metadata kw).
Proof.
  unfold split_text.
  apply preserves_bind; [apply R_get_splitter|]. intros splitter.
  apply preserves_bind; [apply preserves_metadata_or_empty|]. intros l.
  apply preserves_bind.
  - destruct (is_structural strategy); [|apply preserves_lift_heap].
    apply preserves_bind; [apply preserves_lift_heap|]. intros chunks.
    apply preserves_bind.
    + destruct chunks as [[|d ds]|[|c cs]];
        first [apply preserves_raise|apply preserves_ret
              |apply preserves_wrap_strings].
    + intros docs. destruct chunk_size as [size|]; [|apply preserves_ret].
      destruct (size =? 0); [apply preserves_ret|].
      apply preserves_bind; [apply R_get_splitter|]. intros rs.
      apply preserves_second_pass.
  - intros docs. apply preserves_bind; [|intros; apply preserves_ret].
    intros w r w' [= <- <-]. apply R_set_store.
Qed.

Lemma preserves_split_each documents strategy chunk_size chunk_overlap kw :
  preserves R (split_each documents strategy chunk_size chunk_overlap kw).
Proof.
  induction documents as [|doc documents IH]; cbn [split_each];
    [apply preserves_ret|].
  apply preserves_bind; [apply preserves_split_text|]. intros chunks.
  apply preserves_bind; [apply IH|]. intros ?. apply preserves_ret.
Qed.

Lemma preserves_split_documents documents strategy chunk_size chunk_overlap
    kw :
  preserves R
    (split_documents documents strategy chunk_size chunk_overlap kw).
Proof.
  unfold split_documents.
  apply preserves_bind; [apply R_get_splitter|]. intros splitter.
  destruct (is_structural strategy);
    [apply preserves_split_each|apply preserves_lift_heap].
Qed.

Lemma after_call_preserved c w : R w (after_call c w).
Proof.
  destruct c; cbn [after_call]; try apply R_refl.
  - destruct (get_splitter _ _ _ _ w) eqn:Hrun.
    by eapply R_get_splitter.
  - destruct (split_text _ _ _ _ _ _ w) eqn:Hrun.
    by eapply preserves_split_text.
  - destruct (split_documents _ _ _ _ _ w) eqn:Hrun.
    by eapply preserves_split_documents.
Qed.

Lemma after_calls_preserved cs w : R w (after_calls cs w).
Proof.
  revert w. induction cs as [|c cs IH]; intros w; cbn; [apply R_refl|].
  eapply R_trans; [apply after_call_preserved|apply IH].
Qed.

End Preserved.

Section CachedSplitter.
Import Chunking.
Context `{L : LangChain}.

(** No call on the service removes or replaces a cache entry. *)
Lemma after_calls_keeps cs w : cache_kept w (after_calls cs w).
Proof.
  apply after_calls_preserved.
  - apply cache_kept_refl.
  - apply cache_kept_trans.
  - apply cache_kept_set_store.
  - intros strategy chunk_size chunk_overlap kw w0 r w' Hrun.
    by apply get_splitter_world in Hrun as [? _].
Qed.

(** C8. Once [get_splitter] has returned a splitter for
    [(strategy, chunk_size, chunk_overlap)], every later call for the
    same triple (the same values in effect after defaulting) on the same
    service returns that very object, whatever calls were made on the
    service in between: no call removes or replaces the cache entry. The
    keyword arguments of the later call are not looked at, and the later
    call constructs nothing and changes nothing. *)
Theorem get_splitter_returns_cached (strategy : string)
    (chunk_size chunk_overlap chunk_size' chunk_overlap' : option Z)
    (kw kw' : kwargs) (between : list call) (w w1 : world) (s : splitter) :
  get_splitter strategy chunk_size chunk_overlap kw w = (Ok s, w1) →
  int_or chunk_size' (CHUNK_SIZE (settings w))
    = int_or chunk_size (CHUNK_SIZE (settings w)) →
  int_or chunk_overlap' (CHUNK_OVERLAP (settings w))
    = int_or chunk_overlap (CHUNK_OVERLAP (settings w)) →
  let w2 := after_calls between w1 in
  get_splitter strategy chunk_size' chunk_overlap' kw' w2 = (Ok s, w2).
Proof.
  intros Hfirst Hsize Hoverlap w2. subst w2.
  pose proof (get_splitter_cached_after _ _ _ _ _ _ _ Hfirst) as Hin.
  apply get_splitter_world in Hfirst as [[Hset _] _].
  destruct (after_calls_keeps between w1) as [Hset' Hkept].
  apply get_splitter_hit. rewrite Hset', Hset, Hsize, Hoverlap.
  by apply Hkept.
Qed.

End CachedSplitter.

Lemma get_splitter_returns_cached_witness :
  let w := Chunking.new_service Chunking.example_settings in
  let w1 :=
    snd (@Chunking.get_splitter Chunking.window_library "recursive" (Some 300)
           (Some 50) Chunking.space_separator w) in
  let w2 :=
    @Chunking.after_calls Chunking.window_library
      [Chunking.CallSplitText "one two three" "recursive" (Some 4) (Some 1)
         None Chunking.no_kwargs;
       Chunking.CallGetSplitter "token" None None Chunking.no_kwargs] w1 in
  @Chunking.get_splitter Chunking.window_library "recursive" (Some 300)
    (Some 50) Chunking.no_kwargs w2
  = (Ok {| Chunking.oid := 0;
           Chunking.kind :=
             Chunking.RecursiveCharacterTextSplitter 300 50 [" "] false |},
     w2).
Proof.
  cbn zeta.
  apply (get_splitter_returns_cached (L := Chunking.window_library)
           "recursive" (Some 300) (Some 50) (Some 300) (Some 50)
           Chunking.space_separator Chunking.no_kwargs _
           (Chunking.new_service Chunking.example_settings));
    [|reflexivity..].
  rewrite (surjective_pairing (Chunking.get_splitter _ _ _ _ _)) at 1.
  f_equal.
Defined.

(** ** Cache keys *)

Section CacheKeys.
Import Chunking.
Context `{L : LangChain}.

Lemma pretty_N_go_no_underscore x : ∀ s,
  no_underscore s → no_underscore (pretty_N_go x s).
Proof.
  induction (N.lt_wf_0 x) as [x _ IH]; intros s Hs.
  assert (x = 0 ∨ 0 < x)%N as [->|Hpos] by lia.
  - by rewrite pretty_N_go_0.
  - rewrite pretty_N_go_step by done. apply IH; [by apply N.div_lt|].
    split; [|done]. unfold pretty_N_char. by repeat case_match.
Qed.

Lemma pretty_N_no_underscore (x : N) : no_underscore (pretty x).
Proof.
  unfold pretty, pretty_N. destruct (decide (x = 0%N)); [by cbn|].
  by apply pretty_N_go_no_underscore.
Qed.

Lemma pretty_Z_no_underscore (z : Z) : no_underscore (pretty z).
Proof.
  destruct z as [|p|p]; unfold pretty, pretty_Z; [by cbn| |].
  - apply pretty_N_no_underscore.
  - split; [done|]. apply pretty_N_no_underscore.
Qed.

(** The first [_] of a string cuts it in one way only. *)
Lemma no_underscore_split s1 : ∀ s2 t1 t2,
  no_underscore s1 → no_underscore s2 →
  s1 +:+ String "_" t1 = s2 +:+ String "_" t2 → s1 = s2 ∧ t1 = t2.
Proof.
  induction s1 as [|c s1 IH]; intros [|c' s2] t1 t2 H1 H2 Heq.
  - change (String "_" t1 = String "_" t2) in Heq. by injection Heq as ->.
  - change (String "_" t1 = String c' (s2 +:+ String "_" t2)) in Heq.
    injection Heq as <- _. by destruct H2.
  - change (String c (s1 +:+ String "_" t1) = String "_" t2) in Heq.
    injection Heq as -> _. by destruct H1.
  - change (String c (s1 +:+ String "_" t1)
            = String c' (s2 +:+ String "_" t2)) in Heq.
    injection Heq as -> Heq. destruct H1 as [_ H1], H2 as [_ H2].
    by destruct (IH _ _ _ H1 H2 Heq) as [-> ->].
Qed.

(** Different triples have different keys (no strategy name contains
    [_]). *)
Lemma cache_key_inj strategy strategy' size size' overlap overlap' :
  no_underscore strategy → no_underscore strategy' →
  cache_key strategy size overlap = cache_key strategy' size' overlap' →
  strategy = strategy' ∧ size = size' ∧ overlap = overlap'.
Proof.
  unfold cache_key. intros Hs Hs' Heq.
  change (strategy +:+ String "_" (pretty size +:+ String "_" (pretty overlap))
          = strategy' +:+
              String "_" (pretty size' +:+ String "_" (pretty overlap')))
    in Heq.
  apply no_underscore_split in Heq as [-> Heq]; [|done..].
  apply no_underscore_split in Heq as [Hsize Hoverlap];
    [|apply pretty_Z_no_underscore..].
  by apply (inj pretty) in Hsize, Hoverlap.
Qed.

Lemma _create_splitter_kind strategy size overlap kw w s w' :
  _create_splitter strategy size overlap kw w = (Ok s, w') →
  no_underscore strategy ∧
  (strategy = "recursive" →
   ∃ seps rx, kind s = RecursiveCharacterTextSplitter size overlap seps rx).
Proof.
  unfold _create_splitter.
  destruct (String.eqb_spec strategy "recursive") as [->|_].
  { intros Hk%construct_kind. split; [by cbn|]. eauto. }
  destruct (String.eqb_spec strategy "character") as [->|_];
    [by split; [cbn|]|].
  destruct (String.eqb_spec strategy "token") as [->|_];
    [by split; [cbn|]|].
  destruct (String.eqb_spec strategy "markdown") as [->|_];
    [by split; [cbn|]|].
  destruct (String.eqb_spec strategy "html") as [->|_];
    [by split; [cbn|]|].
  destruct (String.eqb_spec strategy "semantic") as [->|_];
    [by split; [cbn|]|].
  done.
Qed.

Lemma get_splitter_entries strategy chunk_size chunk_overlap kw :
  preserves (λ w w', recursive_entries_ok w → recursive_entries_ok w')
    (get_splitter strategy chunk_size chunk_overlap kw).
Proof.
  intros w r w' Hrun Hok.
  destruct (_splitters w !! cache_key strategy
              (int_or chunk_size (CHUNK_SIZE (settings w)))
              (int_or chunk_overlap (CHUNK_OVERLAP (settings w))))
    as [s|] eqn:Hkey.
  - rewrite (get_splitter_hit _ _ _ _ _ _ Hkey) in Hrun.
    by injection Hrun as <- <-.
  - rewrite (get_splitter_miss _ _ _ _ _ Hkey) in Hrun.
    destruct (_create_splitter _ _ _ _ w) as [[s|e] w1] eqn:Hcreate;
      pose proof (_create_splitter_world _ _ _ _ _ _ _ Hcreate)
        as (_ & Hcache & _);
      injection Hrun as <- <-; intros size overlap s'; cbn;
      rewrite Hcache; [|by apply Hok].
    apply _create_splitter_kind in Hcreate as [Hclean Hkind].
    destruct (decide (cache_key strategy
        (int_or chunk_size (CHUNK_SIZE (settings w)))
        (int_or chunk_overlap (CHUNK_OVERLAP (settings w)))
        = cache_key "recursive" size overlap)) as [Heq|Hne].
    + rewrite Heq, lookup_insert_eq. intros [= <-].
      apply cache_key_inj in Heq as (-> & <- & <-); [|done|by cbn].
      destruct Hkind as (seps & rx & ->); eauto.
    + rewrite lookup_insert_ne by done. apply Hok.
Qed.

(** Whatever calls were made on a new service, its recursive cache
    entries are splitters for the chunk size in their key. *)
Lemma recursive_entries_ok_reachable settings cs :
  recursive_entries_ok (after_calls cs (new_service settings)).
Proof.
  apply (after_calls_preserved
           (λ w w', recursive_entries_ok w → recursive_entries_ok w')).
  - auto.
  - auto.
  - intros h w Hok size overlap s. apply Hok.
  - apply get_splitter_entries.
  - intros size overlap s. cbn. by rewrite lookup_empty.
Qed.

End CacheKeys.

(** ** Chunk numbering *)

Section Stamping.
Import Chunking.

Lemma length_setitem l key v (h : heap) :
  length (setitem l key v h) = length h.
Proof. unfold setitem. destruct (h !! l); [apply length_insert|done]. Qed.

Lemma lookup_setitem_ne l l' key v (h : heap) :
  l ≠ l' → setitem l key v h !! l' = h !! l'.
Proof.
  intros Hne. unfold setitem. destruct (h !! l); [|done].
  by apply list_lookup_insert_ne.
Qed.

Lemma lookup_setitem_eq l key v (h : heap) :
  (l < length h)%nat →
  setitem l key v h !! l = Some (<[key := v]> (default ∅ (h !! l))).
Proof.
  intros Hlt. unfold setitem.
  destruct (lookup_lt_is_Some_2 h l Hlt) as [m Hm]. rewrite Hm. cbn.
  by apply list_lookup_insert_eq.
Qed.

Lemma setitem_prefix (h0 h : heap) l key v :
  h0 `prefix_of` h → (length h0 ≤ l)%nat → h0 `prefix_of` setitem l key v h.
Proof.
  intros [rest ->] Hle. unfold setitem.
  destruct ((h0 ++ rest) !! l); [|by exists rest].
  rewrite insert_app_r_alt by done. by eexists.
Qed.

Lemma length_stamp docs i total (h : heap) :
  length (stamp i total docs h) = length h.
Proof.
  revert i h. induction docs as [|d docs IH]; intros i h; cbn; [done|].
  by rewrite IH, !length_setitem.
Qed.

Lemma stamp_other docs i total (h : heap) l :
  l ∉ metadata <$> docs → stamp i total docs h !! l = h !! l.
Proof.
  revert i h. induction docs as [|d docs IH]; intros i h Hnotin; cbn; [done|].
  rewrite fmap_cons, not_elem_of_cons in Hnotin. destruct Hnotin as [Hne Hnotin].
  rewrite IH by done. by rewrite !lookup_setitem_ne.
Qed.

Lemma stamp_prefix docs i total (h0 h : heap) :
  h0 `prefix_of` h → Forall (λ d, (length h0 ≤ metadata d)%nat) docs →
  h0 `prefix_of` stamp i total docs h.
Proof.
  revert i h. induction docs as [|d docs IH]; intros i h Hpre Hall; cbn;
    [done|].
  apply Forall_cons in Hall as [Hd Hall].
  apply IH; [|done]. by repeat apply setitem_prefix.
Qed.

(** The loop of lines 162-164 numbers documents that own their dicts. *)
Lemma stamp_numbered_from docs : ∀ i total (h : heap) j d,
  NoDup (metadata <$> docs) →
  Forall (λ d, (metadata d < length h)%nat) docs →
  docs !! j = Some d →
  metadata_of (stamp i total docs h) d !! "chunk_index"
    = Some (VInt (i + Z.of_nat j)) ∧
  metadata_of (stamp i total docs h) d !! "total_chunks" = Some (VInt total).
Proof.
  induction docs as [|d0 docs IH]; intros i total h j d Hnodup Hall Hj;
    [done|].
  rewrite fmap_cons in Hnodup. apply NoDup_cons in Hnodup as [Hfresh Hnodup].
  apply Forall_cons in Hall as [Hd0 Hall].
  destruct j as [|j]; cbn in Hj.
  - injection Hj as ->. unfold metadata_of. cbn [stamp].
    rewrite stamp_other by done.
    rewrite lookup_setitem_eq by (by rewrite length_setitem).
    rewrite lookup_setitem_eq by done. cbn.
    rewrite Z.add_0_r. split; [|by rewrite lookup_insert_eq].
    rewrite lookup_insert_ne by done. by rewrite lookup_insert_eq.
  - cbn [stamp]. replace (i + Z.of_nat (S j)) with (i + 1 + Z.of_nat j) by lia.
    apply IH; [done| |done].
    eapply Forall_impl; [exact Hall|]. intros d' Hd'. cbn in Hd'.
    by rewrite !length_setitem.
Qed.

Lemma stamp_numbered docs (h : heap) :
  NoDup (metadata <$> docs) →
  Forall (λ d, (metadata d < length h)%nat) docs →
  numbered (stamp 0 (Z.of_nat (length docs)) docs h) docs.
Proof.
  intros Hnodup Hall j d Hj.
  by destruct (stamp_numbered_from docs 0 (Z.of_nat (length docs)) h j d).
Qed.

(** Numbering survives any extension of the store. *)
Lemma numbered_prefix (h h' : heap) docs :
  h `prefix_of` h' → Forall (λ d, (metadata d < length h)%nat) docs →
  numbered h docs → numbered h' docs.
Proof.
  intros Hpre Hall Hnum j d Hj.
  assert (Hd : (metadata d < length h)%nat).
  { eapply Forall_lookup_1 in Hall; [exact Hall|exact Hj]. }
  destruct (lookup_lt_is_Some_2 h _ Hd) as [m Hm].
  unfold metadata_of. rewrite (prefix_lookup_Some _ _ _ _ Hm Hpre).
  specialize (Hnum j d Hj). unfold metadata_of in Hnum. by rewrite Hm in Hnum.
Qed.

Lemma fresh_docs_weaken (h0 h h' : heap) ds :
  h0 `prefix_of` h → fresh_docs h h' ds → fresh_docs h0 h' ds.
Proof.
  intros Hpre (Hpre' & Hnodup & Hall). split; [by etrans|]. split; [done|].
  eapply Forall_impl; [exact Hall|]. intros d. cbn.
  apply prefix_length in Hpre. lia.
Qed.

Lemma fresh_docs_app (h h1 h2 : heap) a b :
  fresh_docs h h1 a → fresh_docs h1 h2 b → fresh_docs h h2 (a ++ b).
Proof.
  intros (Hpre1 & Hnodup1 & Hall1) (Hpre2 & Hnodup2 & Hall2).
  pose proof (prefix_length _ _ Hpre1). pose proof (prefix_length _ _ Hpre2).
  split; [by etrans|]. split.
  - rewrite fmap_app. apply NoDup_app. split; [done|]. split; [|done].
    intros l [da [-> Hda]]%list_elem_of_fmap [db [Heq Hdb]]%list_elem_of_fmap.
    rewrite Forall_forall in Hall1, Hall2.
    specialize (Hall1 _ Hda). specialize (Hall2 _ Hdb). cbn in *. lia.
  - apply Forall_app. split; (eapply Forall_impl; [eassumption|]);
      intros d; cbn; lia.
Qed.

End Stamping.

(** ** [split_text] and [split_documents] *)

Section Splitting.
Import Chunking.
Context `{L : LangChain}.

Lemma bind_Ok {A B} (m : M A) (f : A → M B) w b w' :
  (m ≫= f) w = (Ok b, w') →
  ∃ a w1, m w = (Ok a, w1) ∧ f a w1 = (Ok b, w').
Proof.
  unfold mbind, M_bind. destruct (m w) as [[a|e] w1]; [eauto|done].
Qed.

Lemma lift_heap_Ok {A} (f : heap → result A * heap) w a w' :
  lift_heap f w = (Ok a, w') →
  f (store w) = (Ok a, store w') ∧ _splitters w' = _splitters w.
Proof.
  unfold lift_heap. destruct (f (store w)) as [r h]. by intros [= -> <-].
Qed.

Lemma metadata_or_empty_Ok metadata w l w' :
  metadata_or_empty metadata w = (Ok l, w') →
  store w `prefix_of` store w' ∧ _splitters w' = _splitters w.
Proof.
  unfold metadata_or_empty, mbind, M_bind, get_world, alloc, mret, M_ret.
  destruct metadata as [l0|].
  - destruct (store w !! l0) as [m|]; [destruct (decide _)|];
      intros [= <- <-]; cbn; (split; [|done]);
      first [done|by apply prefix_app_r].
  - intros [= <- <-]; cbn. split; [by apply prefix_app_r|done].
Qed.

Lemma wrap_strings_Ok metadata cs : ∀ w ds w',
  wrap_strings metadata cs w = (Ok ds, w') →
  page_content <$> ds = cs ∧ _splitters w' = _splitters w.
Proof.
  induction cs as [|c cs IH]; intros w ds w'; cbn [wrap_strings].
  - by intros [= <- <-].
  - intros (l & w1 & Hl & Hrest)%bind_Ok.
    apply bind_Ok in Hrest as (ds' & w2 & Hds' & Hret).
    injection Hret as <- <-.
    apply metadata_or_empty_Ok in Hl as [_ Hc1].
    apply IH in Hds' as [<- Hc2]. split; [done|congruence].
Qed.

(** What the loop of lines 150-157 returns: untouched small chunks and
    the pieces of the large ones. *)
Lemma second_pass_Ok rs size docs : ∀ w final w',
  second_pass rs size docs w = (Ok final, w') →
  _splitters w' = _splitters w ∧
  Forall (λ d,
    (d ∈ docs ∧ len (page_content d) ≤ size) ∨
    ∃ d0 h sub h', d0 ∈ docs ∧ size < len (page_content d0) ∧
      lib_split_documents rs [d0] h = (Ok sub, h') ∧ d ∈ sub) final.
Proof.
  induction docs as [|d docs IH]; intros w final w'; cbn [second_pass].
  - by intros [= <- <-].
  - intros (sub & w1 & Hsub & Hrest)%bind_Ok.
    apply bind_Ok in Hrest as (rest & w2 & Hrest & Hret).
    injection Hret as <- <-.
    apply IH in Hrest as [Hc2 Hrest].
    assert (Hrest' : Forall (λ d',
      (d' ∈ d :: docs ∧ len (page_content d') ≤ size) ∨
      ∃ d0 h sub h', d0 ∈ d :: docs ∧ size < len (page_content d0) ∧
        lib_split_documents rs [d0] h = (Ok sub, h') ∧ d' ∈ sub) rest).
    { eapply Forall_impl; [exact Hrest|]. cbn.
      intros d' [[Hin Hle]|(d0 & h & sub' & h' & Hin & Hrest')].
      - left. split; [by right|done].
      - right. exists d0, h, sub', h'. split; [by right|done]. }
    destruct (Z.gtb_spec (len (page_content d)) size) as [Hbig|Hsmall].
    + apply lift_heap_Ok in Hsub as [Hsub Hc1]. split; [congruence|].
      apply Forall_app. split; [|done].
      apply Forall_forall. intros d' Hd'. right.
      exists d, (store w), sub, (store w1). split; [by left|]. split; [lia|].
      done.
    + injection Hsub as <- <-. split; [done|].
      apply Forall_cons. split; [|done]. left. split; [by left|lia].
Qed.

Lemma structural_strategy strategy :
  is_structural strategy = true → strategy = "markdown" ∨ strategy = "html".
Proof.
  unfold is_structural. intros [H|H]%orb_true_iff;
    apply String.eqb_eq in H; auto.
Qed.

(** The splitter the second pass asks for is a recursive splitter for
    [size]. *)
Lemma get_splitter_recursive_kind size chunk_overlap kw w rs w' :
  get_splitter "recursive" (Some size) chunk_overlap kw w = (Ok rs, w') →
  size ≠ 0 → recursive_entries_ok w →
  ∃ overlap seps rx,
    kind rs = RecursiveCharacterTextSplitter size overlap seps rx.
Proof.
  intros Hrun Hsize Hok.
  destruct (_splitters w !! cache_key "recursive"
              (int_or (Some size) (CHUNK_SIZE (settings w)))
              (int_or chunk_overlap (CHUNK_OVERLAP (settings w))))
    as [s|] eqn:Hkey.
  - rewrite (get_splitter_hit _ _ _ _ _ _ Hkey) in Hrun.
    injection Hrun as <- <-.
    rewrite int_or_some_nonzero in Hkey by done. by eapply Hok.
  - rewrite (get_splitter_miss _ _ _ _ _ Hkey) in Hrun.
    destruct (_create_splitter _ _ _ _ w) as [[s|e] w1] eqn:Hcreate; [|done].
    injection Hrun as <- <-.
    rewrite int_or_some_nonzero in Hcreate by done.
    unfold _create_splitter in Hcreate. rewrite String.eqb_refl in Hcreate.
    apply construct_kind in Hcreate. eauto.
Qed.

(** A call for a header strategy leaves the recursive entries alone. *)
Lemma get_splitter_structural_entries strategy chunk_size chunk_overlap kw
    w r w' :
  is_structural strategy = true →
  get_splitter strategy chunk_size chunk_overlap kw w = (r, w') →
  recursive_entries_ok w → recursive_entries_ok w'.
Proof.
  intros Hstruct Hrun Hok.
  destruct (_splitters w !! cache_key strategy
              (int_or chunk_size (CHUNK_SIZE (settings w)))
              (int_or chunk_overlap (CHUNK_OVERLAP (settings w))))
    as [s|] eqn:Hkey.
  - rewrite (get_splitter_hit _ _ _ _ _ _ Hkey) in Hrun.
    by injection Hrun as <- <-.
  - rewrite (get_splitter_miss _ _ _ _ _ Hkey) in Hrun.
    destruct (_create_splitter _ _ _ _ w) as [[s|e] w1] eqn:Hcreate;
      apply _create_splitter_world in Hcreate as (_ & Hcache & _);
      injection Hrun as <- <-; intros size overlap s'; cbn;
      rewrite Hcache; [|by apply Hok].
    rewrite lookup_insert_ne; [by apply Hok|].
    destruct (structural_strategy _ Hstruct) as [-> | ->]; discriminate.
Qed.

(** A call for another key leaves the entry of [key] as it was. *)
Lemma get_splitter_other_key strategy chunk_size chunk_overlap kw w r w' key :
  get_splitter strategy chunk_size chunk_overlap kw w = (r, w') →
  key ≠ cache_key strategy (int_or chunk_size (CHUNK_SIZE (settings w)))
          (int_or chunk_overlap (CHUNK_OVERLAP (settings w))) →
  _splitters w' !! key = _splitters w !! key.
Proof.
  intros Hrun Hkey.
  destruct (_splitters w !! cache_key strategy
              (int_or chunk_size (CHUNK_SIZE (settings w)))
              (int_or chunk_overlap (CHUNK_OVERLAP (settings w))))
    as [s|] eqn:Hin.
  - rewrite (get_splitter_hit _ _ _ _ _ _ Hin) in Hrun.
    by injection Hrun as <- <-.
  - rewrite (get_splitter_miss _ _ _ _ _ Hin) in Hrun.
    destruct (_create_splitter _ _ _ _ w) as [[s|e] w1] eqn:Hcreate;
      apply _create_splitter_world in Hcreate as (_ & Hcache & _);
      injection Hrun as <- <-; cbn; rewrite ?Hcache; [|done].
    by rewrite lookup_insert_ne.
Qed.

(** The steps of [split_text] between its two [get_splitter] calls work
    on the store only. *)
Lemma store_only_metadata_or_empty metadata w r w' :
  metadata_or_empty metadata w = (r, w') →
  settings w' = settings w ∧ _splitters w' = _splitters w.
Proof.
  apply (preserves_metadata_or_empty
           (λ w w', settings w' = settings w ∧ _splitters w' = _splitters w)).
  - done.
  - intros w1 w2 w3 [? ?] [? ?]. split; congruence.
  - done.
Qed.

Lemma store_only_wrap_strings metadata cs w r w' :
  wrap_strings metadata cs w = (r, w') →
  settings w' = settings w ∧ _splitters w' = _splitters w.
Proof.
  apply (preserves_wrap_strings
           (λ w w', settings w' = settings w ∧ _splitters w' = _splitters w)).
  - done.
  - intros w1 w2 w3 [? ?] [? ?]. split; congruence.
  - done.
Qed.

Lemma store_only_lift_heap {A} (f : heap → result A * heap) w r w' :
  lift_heap f w = (r, w') →
  settings w' = settings w ∧ _splitters w' = _splitters w.
Proof.
  unfold lift_heap. destruct (f (store w)) as [r1 h]. by intros [= <- <-].
Qed.

(** The loop of lines 150-157 chunk by chunk. *)
Lemma second_pass_pieces rs size docs : ∀ w final w',
  second_pass rs size docs w = (Ok final, w') →
  ∃ pieces, Forall2 (resplit rs size) docs pieces ∧ final = concat pieces.
Proof.
  induction docs as [|d docs IH]; intros w final w'; cbn [second_pass].
  - intros [= <- <-]. exists []. by split; [constructor|].
  - intros (sub & w1 & Hsub & Hrest)%bind_Ok.
    apply bind_Ok in Hrest as (rest & w2 & Hrest & Hret).
    injection Hret as <- <-.
    apply IH in Hrest as (pieces & Hpieces & ->).
    exists (sub :: pieces). split; [|done].
    constructor; [|done]. unfold resplit.
    destruct (len (page_content d) >? size).
    + apply lift_heap_Ok in Hsub as [Hsub _]. eauto.
    + by injection Hsub as <- <-.
Qed.

Lemma resplit_bounded rs size docs pieces :
  Forall2 (resplit rs size) docs pieces →
  (∀ d h sub h',
     size < len (page_content d) →
     lib_split_documents rs [d] h = (Ok sub, h') →
     Forall (λ c, len (page_content c) ≤ size) sub) →
  Forall (λ d, len (page_content d) ≤ size) (concat pieces).
Proof.
  intros Hpieces Hbound.
  induction Hpieces as [|d piece docs pieces Hd _ IH]; [constructor|].
  cbn [concat]. apply Forall_app. split; [|done].
  unfold resplit in Hd.
  destruct (Z.gtb_spec (len (page_content d)) size) as [Hbig|Hfits].
  - destruct Hd as (h & h' & Hsub). by eapply Hbound.
  - subst piece. apply Forall_singleton. lia.
Qed.

(** C3 (amended). When [split_text] is called for ["markdown"] or
    ["html"] with an explicit non-zero [chunk_size], it returns the
    chunks of the header splitter in order, each chunk longer than
    [chunk_size] replaced by what the recursive splitter returns for it
    and every other chunk kept as it is. The recursive splitter is the
    cache entry for [chunk_size] and the overlap in effect: built with
    the default separators when the key was not cached before the call,
    otherwise the one an earlier call left there (a recursive splitter
    for [chunk_size] when the cached recursive splitters were built for
    the size in their key). So no returned chunk exceeds [chunk_size]
    provided this splitter returns no piece longer than [chunk_size]
    for a chunk that is. When [chunk_size] is left unspecified ([None],
    or 0) there is no second pass: the chunks of the header splitter are
    returned as they are, whatever their length. *)
Theorem split_text_second_pass :
  (∀ text strategy size chunk_overlap metadata kw w docs w',
     is_structural strategy = true → size ≠ 0 →
     split_text text strategy (Some size) chunk_overlap metadata kw w
       = (Ok docs, w') →
     let overlap := int_or chunk_overlap (CHUNK_OVERLAP (settings w)) in
     let key := cache_key "recursive" size overlap in
     ∃ s h chunks h' structural rs pieces,
       header_split_text s text h = (Ok chunks, h') ∧
       page_content <$> structural =
         match chunks with
         | ChunkDocs ds => page_content <$> ds
         | ChunkStrs cs => cs
         end ∧
       _splitters w' !! key = Some rs ∧
       (_splitters w !! key = None →
        kind rs = RecursiveCharacterTextSplitter size overlap
                    default_separators false) ∧
       (recursive_entries_ok w →
        ∃ overlap' seps rx,
          kind rs = RecursiveCharacterTextSplitter size overlap' seps rx) ∧
       Forall2 (resplit rs size) structural pieces ∧
       docs = concat pieces ∧
       ((∀ d h sub h',
           size < len (page_content d) →
           lib_split_documents rs [d] h = (Ok sub, h') →
           Forall (λ c, len (page_content c) ≤ size) sub) →
        Forall (λ d, len (page_content d) ≤ size) docs)) ∧
  (∀ text strategy chunk_size chunk_overlap metadata kw w docs w',
     is_structural strategy = true → int_truthy chunk_size = false →
     split_text text strategy chunk_size chunk_overlap metadata kw w
       = (Ok docs, w') →
     ∃ s h chunks h',
       header_split_text s text h = (Ok chunks, h') ∧
       page_content <$> docs =
         match chunks with
         | ChunkDocs ds => page_content <$> ds
         | ChunkStrs cs => cs
         end).
Proof.
  split.
  - intros * Hstruct Hsize. unfold split_text.
    set (overlap := int_or chunk_overlap (CHUNK_OVERLAP (settings w))).
    set (key := cache_key "recursive" size overlap).
    intros (splitter & w1 & Hsplitter & Hrest)%bind_Ok.
    apply bind_Ok in Hrest as (l & w2 & Hl & Hrest).
    apply bind_Ok in Hrest as (docs0 & w3 & Hdocs & Hrest).
    apply bind_Ok in Hrest as ([] & w4 & Hstamp & Hret).
    injection Hret as <- <-. injection Hstamp as <-.
    rewrite Hstruct in Hdocs.
    apply bind_Ok in Hdocs as (chunks & wa & Hchunks & Hdocs).
    apply bind_Ok in Hdocs as (ds & wb & Hds & Hdocs).
    destruct (Z.eqb_spec size 0) as [|_]; [done|].
    apply bind_Ok in Hdocs as (rs & wc & Hrs & Hpass).
    (* the service between the two [get_splitter] calls *)
    assert (Hkey1 : _splitters w1 !! key = _splitters w !! key).
    { eapply get_splitter_other_key; [exact Hsplitter|].
      subst key. unfold cache_key.
      destruct (structural_strategy _ Hstruct) as [-> | ->]; discriminate. }
    pose proof (get_splitter_structural_entries _ _ _ _ _ _ _ Hstruct
                  Hsplitter) as Hentries.
    apply get_splitter_world in Hsplitter as [[Hset1 _] _].
    apply store_only_metadata_or_empty in Hl as [Hset2 Hcache2].
    pose proof (store_only_lift_heap _ _ _ _ Hchunks) as [Hseta Hcachea].
    apply lift_heap_Ok in Hchunks as [Hchunks _].
    assert (Hstructural :
      (settings wb = settings wa ∧ _splitters wb = _splitters wa) ∧
      page_content <$> ds =
        match chunks with
        | ChunkDocs ds => page_content <$> ds
        | ChunkStrs cs => cs
        end).
    { destruct chunks as [[|d ds']|[|c cs]]; try done.
      - by injection Hds as <- <-.
      - split; [by eapply store_only_wrap_strings|].
        by apply wrap_strings_Ok in Hds as [? _]. }
    destruct Hstructural as [[Hsetb Hcacheb] Hcontents].
    assert (Hset : settings wb = settings w) by congruence.
    assert (Hcache : _splitters wb = _splitters w1) by congruence.
    (* the second [get_splitter] call and the loop *)
    pose proof (get_splitter_cached_after _ _ _ _ _ _ _ Hrs) as Hcached.
    rewrite int_or_some_nonzero, Hset in Hcached by done.
    destruct (second_pass_Ok _ _ _ _ _ _ Hpass) as [Hcache3 _].
    apply second_pass_pieces in Hpass as (pieces & Hpieces & ->).
    exists splitter, (store w2), chunks, (store wa), ds, rs, pieces.
    split; [done|]. split; [done|].
    split; [cbn; by rewrite Hcache3|].
    split; [|split; [|split; [done|split; [done|]]]].
    + intros Hnone.
      assert (Hmiss : _splitters wb !! cache_key "recursive"
                (int_or (Some size) (CHUNK_SIZE (settings wb)))
                (int_or chunk_overlap (CHUNK_OVERLAP (settings wb))) = None).
      { rewrite int_or_some_nonzero, Hset, Hcache by done.
        exact (eq_trans Hkey1 Hnone). }
      rewrite (get_splitter_miss _ _ _ _ _ Hmiss) in Hrs.
      destruct (_create_splitter _ _ _ _ wb) as [[s|e] w5] eqn:Hcreate;
        [|done].
      injection Hrs as <- <-.
      rewrite int_or_some_nonzero, Hset in Hcreate by done.
      unfold _create_splitter in Hcreate. rewrite String.eqb_refl in Hcreate.
      by apply construct_kind in Hcreate.
    + intros Hok.
      eapply (get_splitter_recursive_kind _ _ _ _ _ _ Hrs Hsize).
      intros size' overlap' s'. rewrite Hcache. by apply Hentries.
    + exact (resplit_bounded _ _ _ _ Hpieces).
  - intros * Hstruct Hsize. unfold split_text.
    intros (splitter & w1 & Hsplitter & Hrest)%bind_Ok.
    apply bind_Ok in Hrest as (l & w2 & Hl & Hrest).
    apply bind_Ok in Hrest as (docs0 & w3 & Hdocs & Hrest).
    apply bind_Ok in Hrest as ([] & w4 & _ & Hret).
    injection Hret as <- _.
    rewrite Hstruct in Hdocs.
    apply bind_Ok in Hdocs as (chunks & wa & Hchunks & Hdocs).
    apply bind_Ok in Hdocs as (ds & wb & Hds & Hdocs).
    apply lift_heap_Ok in Hchunks as [Hchunks _].
    exists splitter, (store w2), chunks, (store wa). split; [done|].
    assert (docs0 = ds) as ->.
    { destruct chunk_size as [size|]; [|by injection Hdocs as <- _].
      cbn in Hsize. apply negb_false_iff in Hsize. rewrite Hsize in Hdocs.
      by injection Hdocs as <- _. }
    destruct chunks as [[|d ds']|[|c cs]]; try done.
    + by injection Hds as <- _.
    + by apply wrap_strings_Ok in Hds as [? _].
Qed.

Context `{!LangChainLaws L}.

(** The documents the second pass returns own their dicts. *)
Lemma second_pass_fresh rs size docs : ∀ w final w',
  second_pass rs size docs w = (Ok final, w') →
  NoDup (metadata <$> docs) →
  Forall (λ d, (metadata d < length (store w))%nat) docs →
  store w `prefix_of` store w' ∧
  NoDup (metadata <$> final) ∧
  Forall (λ d,
    (metadata d ∈ metadata <$> docs ∨
     (length (store w) ≤ metadata d)%nat) ∧
    (metadata d < length (store w'))%nat) final.
Proof.
  induction docs as [|d docs IH]; intros w final w'; cbn [second_pass].
  - intros [= <- <-] _ _. split; [done|]. split; [constructor|constructor].
  - intros (sub & w1 & Hsub & Hrest)%bind_Ok Hnodup Hall.
    apply bind_Ok in Hrest as (rest & w2 & Hrest & Hret).
    injection Hret as <- <-.
    rewrite fmap_cons in Hnodup.
    apply NoDup_cons in Hnodup as [Hd_notin Hnodup].
    apply Forall_cons in Hall as [Hd Hall].
    assert (Hsub' :
      store w `prefix_of` store w1 ∧ NoDup (metadata <$> sub) ∧
      Forall (λ d', (metadata d' = metadata d ∨
                     (length (store w) ≤ metadata d')%nat) ∧
                    (metadata d' < length (store w1))%nat) sub).
    { destruct (len (page_content d) >? size).
      - apply lift_heap_Ok in Hsub as [Hsub _].
        apply split_documents_fresh in Hsub as (Hpre & Hnd & Hfresh).
        split; [done|]. split; [done|].
        eapply Forall_impl; [exact Hfresh|]. cbn. intros d'. lia.
      - injection Hsub as <- <-. split; [done|].
        split; [apply NoDup_singleton|]. apply Forall_singleton. auto. }
    destruct Hsub' as (Hpre1 & Hnd_sub & Hsub_all).
    pose proof (prefix_length _ _ Hpre1) as Hlen1.
    apply IH in Hrest as (Hpre2 & Hnd_rest & Hrest_all); [|done|].
    2:{ eapply Forall_impl; [exact Hall|]. cbn. intros d'. lia. }
    pose proof (prefix_length _ _ Hpre2) as Hlen2.
    split; [by etrans|]. split.
    + rewrite fmap_app. apply NoDup_app. split; [done|]. split; [|done].
      intros l [ds [-> Hds]]%list_elem_of_fmap
               [dr [Heq Hdr]]%list_elem_of_fmap.
      rewrite Forall_forall in Hsub_all, Hrest_all, Hall.
      destruct (Hsub_all _ Hds) as [Hs1 Hs2].
      destruct (Hrest_all _ Hdr) as [Hr1 Hr2].
      destruct Hr1 as [Hin|Hge].
      * apply list_elem_of_fmap in Hin as [d1 [Heq1 Hd1]].
        destruct Hs1 as [Hsame|Hnew].
        -- apply Hd_notin. rewrite <- Hsame, Heq, Heq1.
           by apply list_elem_of_fmap_2.
        -- specialize (Hall _ Hd1). cbn in Hall. lia.
      * lia.
    + apply Forall_app. split.
      * eapply Forall_impl; [exact Hsub_all|]. cbn.
        intros d' [[Hsame|Hnew] Hlt]; (split; [|lia]).
        -- left. rewrite Hsame. by left.
        -- by right.
      * eapply Forall_impl; [exact Hrest_all|]. cbn.
        intros d' [[Hin|Hnew] Hlt]; (split; [|lia]).
        -- left. by right.
        -- right. lia.
Qed.

(** [split_text] returns documents that own their dicts, all allocated
    during the call, and numbers them. *)
Lemma split_text_Ok text strategy chunk_size chunk_overlap metadata kw
    w docs w' :
  split_text text strategy chunk_size chunk_overlap metadata kw w
    = (Ok docs, w') →
  fresh_docs (store w) (store w') docs ∧ numbered (store w') docs.
Proof.
  unfold split_text.
  intros (splitter & w1 & Hsplitter & Hrest)%bind_Ok.
  apply bind_Ok in Hrest as (l & w2 & Hl & Hrest).
  apply bind_Ok in Hrest as (docs0 & w3 & Hdocs & Hrest).
  apply bind_Ok in Hrest as ([] & w4 & Hstamp & Hret).
  injection Hret as <- <-. injection Hstamp as <-.
  apply get_splitter_world in Hsplitter as [_ Hstore1].
  apply metadata_or_empty_Ok in Hl as [Hpre2 _].
  rewrite Hstore1 in Hpre2.
  assert (Hfresh : fresh_docs (store w2) (store w3) docs0).
  { destruct (is_structural strategy).
    - apply bind_Ok in Hdocs as (chunks & wa & Hchunks & Hdocs).
      apply lift_heap_Ok in Hchunks as [Hchunks _].
      apply header_split_docs in Hchunks as (ds & -> & Hds).
      apply bind_Ok in Hdocs as (ds' & wb & Hds' & Hdocs).
      assert (ds' = ds ∧ wb = wa) as [-> ->]
        by (destruct ds; [done|by injection Hds' as <- <-]).
      destruct chunk_size as [size|];
        [|by injection Hdocs as <- <-].
      destruct (size =? 0); [by injection Hdocs as <- <-|].
      apply bind_Ok in Hdocs as (rs & wc & Hrs & Hpass).
      apply get_splitter_world in Hrs as [_ Hstore_c].
      destruct Hds as (Hpre & Hnodup & Hall).
      apply second_pass_fresh in Hpass as (Hpre' & Hnodup' & Hall');
        [|done|].
      2:{ rewrite Hstore_c. eapply Forall_impl; [exact Hall|].
          cbn. intros d. lia. }
      rewrite Hstore_c in Hpre', Hall'.
      split; [by etrans|]. split; [done|].
      rewrite Forall_forall in Hall. apply prefix_length in Hpre.
      eapply Forall_impl; [exact Hall'|]. cbn.
      intros d [[[d1 [-> Hd1]]%list_elem_of_fmap|Hnew] Hlt]; (split; [|lia]).
      + specialize (Hall _ Hd1). cbn in Hall. lia.
      + lia.
    - apply lift_heap_Ok in Hdocs as [Hdocs _].
      by apply split_documents_fresh in Hdocs. }
  destruct (fresh_docs_weaken _ _ _ _ Hpre2 Hfresh) as (Hpre & Hnodup & Hall).
  cbn [store set_store]. split.
  - split; [|split; [done|]].
    + apply stamp_prefix; [done|].
      eapply Forall_impl; [exact Hall|]. cbn. intros d. lia.
    + rewrite length_stamp. done.
  - apply stamp_numbered; [done|].
    eapply Forall_impl; [exact Hall|]. cbn. intros d. lia.
Qed.

(** [split_each] runs [split_text] once per input document and numbers
    the chunks of every input document on their own. *)
Lemma split_each_Ok strategy chunk_size chunk_overlap kw documents :
  ∀ w docs w',
  split_each documents strategy chunk_size chunk_overlap kw w
    = (Ok docs, w') →
  store w `prefix_of` store w' ∧
  ∃ blocks,
    split_text_runs documents strategy chunk_size chunk_overlap kw blocks
      w w' ∧
    docs = concat blocks ∧ length blocks = length documents ∧
    Forall (numbered (store w')) blocks.
Proof.
  induction documents as [|doc documents IH]; intros w docs w';
    cbn [split_each].
  - intros [= <- <-]. split; [done|]. by exists [].
  - intros (chunks & w1 & Hchunks & Hrest)%bind_Ok.
    apply bind_Ok in Hrest as (more & w2 & Hmore & Hret).
    injection Hret as <- <-.
    pose proof Hchunks as Hcall.
    apply split_text_Ok in Hchunks as ((Hpre1 & _ & Hall1) & Hnum1).
    apply IH in Hmore as (Hpre2 & blocks & Hruns & -> & Hlen & Hnum2).
    split; [by etrans|].
    exists (chunks :: blocks). split; [by exists w1|].
    split; [done|]. split; [cbn; lia|].
    apply Forall_cons. split; [|done].
    eapply numbered_prefix; [exact Hpre2| |exact Hnum1].
    eapply Forall_impl; [exact Hall1|]. cbn. intros d. lia.
Qed.

(** C2 (amended). The chunks one [split_text] call returns, for every
    input and every strategy, carry [chunk_index] 0..n-1 in order and all
    carry [total_chunks = n], n the number of chunks returned, the fields
    being written over the final sequence after the second pass.
    [split_documents] with ["markdown"] or ["html"] returns the
    concatenation, in input order, of what one [split_text] call per
    input document returned (called on the content and the metadata of
    that document, with the same strategy, sizes and keyword arguments,
    after the [get_splitter] call of line 177): the chunks of each input
    document are numbered on their own. (The library is taken to return
    documents that own their metadata dict, and the header splitters to
    return Document objects.) *)
Theorem split_chunks_numbered :
  (∀ text strategy chunk_size chunk_overlap metadata kw w docs w',
     split_text text strategy chunk_size chunk_overlap metadata kw w
       = (Ok docs, w') →
     numbered (store w') docs) ∧
  (∀ documents strategy chunk_size chunk_overlap kw w docs w',
     is_structural strategy = true →
     split_documents documents strategy chunk_size chunk_overlap kw w
       = (Ok docs, w') →
     ∃ splitter w0 blocks,
       get_splitter strategy chunk_size chunk_overlap kw w
         = (Ok splitter, w0) ∧
       split_text_runs documents strategy chunk_size chunk_overlap kw
         blocks w0 w' ∧
       docs = concat blocks ∧ length blocks = length documents ∧
       Forall (numbered (store w')) blocks).
Proof.
  split.
  - intros * Hrun. by apply split_text_Ok in Hrun as [_ Hnum].
  - intros * Hstruct. unfold split_documents.
    intros (splitter & w0 & Hsplitter & Hrun)%bind_Ok.
    rewrite Hstruct in Hrun.
    apply split_each_Ok in Hrun as [_ (blocks & Hblocks)].
    by exists splitter, w0, blocks.
Qed.

End Splitting.

(** ** The example library meets the laws; examples *)

Section WindowLibrary.
Import Chunking.

Lemma new_documents_fresh ps m : ∀ (h : heap) ds h',
  new_documents ps m h = (ds, h') → fresh_docs h h' ds.
Proof.
  induction ps as [|p ps IH]; intros h ds h'; cbn [new_documents].
  - intros [= <- <-]. split; [done|]. split; constructor.
  - destruct (new_documents ps m (h ++ [m])) as [ds' h1] eqn:Hrest.
    intros [= <- <-]. apply IH in Hrest.
    change (fresh_docs h h1
              ([{| page_content := p; metadata := length h |}] ++ ds')).
    eapply fresh_docs_app; [|exact Hrest].
    split; [by apply prefix_app_r|]. split; [apply NoDup_singleton|].
    apply Forall_singleton. cbn. rewrite length_app. cbn. lia.
Qed.

Lemma window_split_documents_fresh k ds : ∀ (h : heap) ds' h',
  window_split_documents k ds h = (ds', h') → fresh_docs h h' ds'.
Proof.
  induction ds as [|d ds IH]; intros h ds' h'; cbn [window_split_documents].
  - intros [= <- <-]. split; [done|]. split; constructor.
  - destruct (new_documents _ _ h) as [a h1] eqn:Ha.
    destruct (window_split_documents k ds h1) as [b h2] eqn:Hb.
    intros [= <- <-]. apply new_documents_fresh in Ha. apply IH in Hb.
    by eapply fresh_docs_app.
Qed.

Lemma window_library_laws : LangChainLaws window_library.
Proof.
  split.
  - intros s text h c h'. cbn.
    destruct (new_documents _ _ h) as [ds h1] eqn:Hds.
    intros [= <- <-]. exists ds. split; [done|].
    by apply new_documents_fresh in Hds.
  - intros s ds h ds' h'. cbn.
    destruct (window_split_documents _ ds h) as [ds1 h1] eqn:Hds.
    intros [= <- <-]. by apply window_split_documents_fresh in Hds.
Qed.

Lemma split_chunks_numbered_witness :
  let run :=
    @split_text window_library ("# ab" +:+ nl +:+ "cdefghij") "markdown"
      (Some 4) (Some 1) None no_kwargs (new_service example_settings) in
  fst run = Ok example_chunks ∧ numbered (store (snd run)) example_chunks.
Proof.
  cbn zeta. split; [reflexivity|].
  eapply (proj1 (@split_chunks_numbered window_library window_library_laws)).
  rewrite (surjective_pairing (split_text _ _ _ _ _ _ _)) at 1.
  f_equal. reflexivity.
Defined.

(** [split_documents] on two markdown documents of one chunk each:
    both chunks carry [chunk_index = 0] and [total_chunks = 1], so the
    indices of the two chunks returned are not 0..1 and [total_chunks]
    is not their number. *)
Lemma split_documents_not_numbered :
  let run :=
    @split_documents window_library two_documents "markdown" None None
      no_kwargs two_documents_world in
  let d1 := {| page_content := "# Alpha"; metadata := 3 |} in
  let d2 := {| page_content := "# Beta"; metadata := 5 |} in
  fst run = Ok [d1; d2] ∧
  metadata_of (store (snd run)) d1 !! "chunk_index" = Some (VInt 0) ∧
  metadata_of (store (snd run)) d1 !! "total_chunks" = Some (VInt 1) ∧
  metadata_of (store (snd run)) d2 !! "chunk_index" = Some (VInt 0) ∧
  metadata_of (store (snd run)) d2 !! "total_chunks" = Some (VInt 1) ∧
  ¬ numbered (store (snd run)) [d1; d2].
Proof.
  cbn zeta. split; [reflexivity|].
  split; [reflexivity|]. split; [reflexivity|].
  split; [reflexivity|]. split; [reflexivity|].
  intros Hnum. by destruct (Hnum 1%nat _ eq_refl) as [Hindex _].
Qed.

(** [split_documents] with the recursive strategy hands the result of
    the library back as it is: the chunks carry no [chunk_index]. *)
Example split_documents_recursive_unstamped :
  let run :=
    @split_documents window_library
      [ {| page_content := "abcdefgh"; metadata := 0 |} ] "recursive"
      (Some 4) (Some 1) no_kwargs two_documents_world in
  let d1 := {| page_content := "abcd"; metadata := 2 |} in
  let d2 := {| page_content := "efgh"; metadata := 3 |} in
  fst run = Ok [d1; d2] ∧
  metadata_of (store (snd run)) d1 !! "chunk_index" = None ∧
  metadata_of (store (snd run)) d2 !! "total_chunks" = None.
Proof. cbn zeta. repeat split; reflexivity. Qed.

Lemma length_substring_0 n s : (String.length (substring 0 n s) ≤ n)%nat.
Proof.
  revert s. induction n as [|n IH]; intros [|c s]; cbn; try lia.
  specialize (IH s). lia.
Qed.

Lemma windows_bounded fuel n s :
  Forall (λ p, (String.length p ≤ n)%nat) (windows fuel n s).
Proof.
  revert s. induction fuel as [|fuel IH]; intros s; cbn; [constructor|].
  destruct s as [|c s]; [constructor|].
  apply Forall_cons. split; [apply length_substring_0|apply IH].
Qed.

Lemma new_documents_contents ps m : ∀ (h : heap) ds h',
  new_documents ps m h = (ds, h') → page_content <$> ds = ps.
Proof.
  induction ps as [|p ps IH]; intros h ds h'; cbn [new_documents].
  - by intros [= <- <-].
  - destruct (new_documents ps m (h ++ [m])) as [ds' h1] eqn:Hrest.
    intros [= <- <-]. cbn. f_equal. by eapply IH.
Qed.

Lemma window_library_bounded : recursive_bounded window_library.
Proof.
  intros s ds h ds' h' size overlap seps rx Hkind. cbn. rewrite Hkind.
  destruct (window_split_documents _ ds h) as [ds1 h1] eqn:Hrun.
  intros [= <- <-]. revert h ds1 h1 Hrun.
  induction ds as [|d ds IH]; intros h ds1 h1; cbn [window_split_documents].
  - intros [= <- <-]. constructor.
  - destruct (new_documents _ _ h) as [a h2] eqn:Ha.
    destruct (window_split_documents _ ds h2) as [b h3] eqn:Hb.
    intros [= <- <-]. apply Forall_app. split; [|by eapply IH].
    apply new_documents_contents in Ha.
    apply Forall_forall. intros d' Hd'.
    assert (Hin : page_content d' ∈ page_content <$> a)
      by by apply list_elem_of_fmap_2.
    rewrite Ha in Hin. unfold pieces in Hin. cbn [window_size] in Hin.
    destruct (Z.to_nat size) as [|n] eqn:Hn;
      [by apply elem_of_nil in Hin|].
    pose proof (windows_bounded (String.length (page_content d)) (S n)
                  (page_content d)) as Hall.
    rewrite Forall_forall in Hall. specialize (Hall _ Hin).
    unfold len. lia.
Qed.

Lemma split_text_second_pass_witness :
  let run :=
    @split_text window_library ("# ab" +:+ nl +:+ "cdefghij") "markdown"
      (Some 4) (Some 1) None no_kwargs (new_service example_settings) in
  fst run = Ok example_chunks ∧
  Forall (λ d, len (page_content d) ≤ 4) example_chunks.
Proof.
  cbn zeta. split; [reflexivity|].
  destruct (proj1 (split_text_second_pass (L := window_library))
              ("# ab" +:+ nl +:+ "cdefghij") "markdown" 4 (Some 1) None
              no_kwargs (new_service example_settings) example_chunks
              (snd (@split_text window_library
                      ("# ab" +:+ nl +:+ "cdefghij") "markdown" (Some 4)
                      (Some 1) None no_kwargs
                      (new_service example_settings))))
    as (s & h & chunks & h' & structural & rs & pieces & _ & _ & _ & Hkind
        & _ & _ & _ & Hbound).
  - reflexivity.
  - discriminate.
  - rewrite (surjective_pairing (split_text _ _ _ _ _ _ _)) at 1. f_equal.
  - apply Hbound. intros d h0 sub h0' _ Hsub.
    eapply window_library_bounded; [|exact Hsub].
    apply Hkind. reflexivity.
Defined.

(** With [chunk_size] left unspecified and a default of 8, [split_text]
    returns a markdown chunk of 14 characters as it is, although the
    library's recursive splitter would cut it. *)
Lemma split_text_unspecified_size_not_resplit :
  let settings := {| CHUNK_SIZE := 8; CHUNK_OVERLAP := 2; RETRIEVAL_K := 5 |} in
  let run :=
    @split_text window_library "# abcdefghijkl" "markdown" None None None
      no_kwargs (new_service settings) in
  let d := {| page_content := "# abcdefghijkl"; metadata := 1 |} in
  fst run = Ok [d] ∧
  len (page_content d) = 14 ∧
  int_or None (CHUNK_SIZE settings) = 8 ∧
  ¬ Forall (λ d, len (page_content d) ≤ int_or None (CHUNK_SIZE settings)) [d].
Proof.
  cbn zeta. split; [reflexivity|]. split; [reflexivity|].
  split; [reflexivity|]. intros Hall. apply List.Forall_inv in Hall.
  vm_compute in Hall. by apply Hall.
Qed.

(** Why the header splitters are required to return documents that
    own their dict: were they to return plain strings, line 145 would give
    every chunk the caller's non-empty dict, and the loop of lines 162-164
    would leave the last index in it for all of them. *)
Example split_text_shared_metadata :
  let run :=
    @split_text plain_lines_library ("# a" +:+ nl +:+ "# b") "markdown"
      None None (Some 0%nat) no_kwargs tagged_world in
  fst run = Ok [ {| page_content := "# a"; metadata := 0 |};
                 {| page_content := "# b"; metadata := 0 |} ] ∧
  store (snd run) !! 0%nat
  = Some (<["total_chunks" := VInt 2]>
            (<["chunk_index" := VInt 1]> {["source" := VStr "notes.md"]})).
Proof. cbn zeta. split; [reflexivity|]. by vm_compute. Qed.

End WindowLibrary.

(** ** The orchestrator *)

Section Orchestrator.
Import Chunking(example_settings).
Import Rag.

Lemma calls_tokens (cs : list string) :
  List.filter is_call (map (λ c, Yield (EvToken c)) cs) = [].
Proof. induction cs as [|c cs IH]; cbn; congruence. Qed.

(** With [k=30] and [fetch_k] left out, the vector store is asked for a
    pool of 20 candidates, fewer than [k] and not [max(k, 20) = 30]. *)
Lemma mmr_search_pool_below_k :
  gateway_calls (@mmr_search example_gateways "q" (Some 30) None None)
    = [CallMMR "q" 30 20 (1 # 2)] ∧
  Z.max 30 20 = 30 ∧ 20 < 30.
Proof. vm_compute. repeat split. Qed.

(** C5 (amended). Whenever [fetch_k] is left unspecified, the candidate
    pool [RAGService.mmr_search] (and [QdrantService.mmr_search]) asks
    the vector store for has the fixed size 20, whatever [k] is; this is
    [max(k, 20)], and at least [k], exactly when [k <= 20]. *)
Theorem mmr_search_default_fetch_k `{Gateways} (query : string)
    (k : option Z) (lambda_mult : option Q) :
  let k' := default 5 k in
  let lambda' := default (1 # 2)%Q lambda_mult in
  let calls :=
    match get_vectorstore with
    | Ok _ => [CallMMR query k' 20 lambda']
    | Raise _ => []
    end in
  gateway_calls (mmr_search query k None lambda_mult) = calls ∧
  gateway_calls (qdrant_mmr_search query k None lambda_mult) = calls ∧
  (20 = Z.max k' 20 ↔ k' ≤ 20).
Proof.
  cbn zeta. unfold mmr_search, qdrant_mmr_search, gateway_calls, calling.
  cbn. destruct get_vectorstore; cbn;
    [destruct (max_marginal_relevance_search _ _ _ _); cbn|].
  all: repeat split; try reflexivity; lia.
Qed.

(** Whatever the collaborators do: no [sources] event when the caller
    opted out, only [token] events after it, and a [done] event exactly
    when the run ends without an exception, in last position. *)
Lemma query_events_shape `{Gateways} (settings : Settings)
    (question : string) (stream include_sources : bool) (k : option Z)
    (search_type : string) (chat_history : option (list (gmap string string))) :
  let run := query settings question stream include_sources k search_type
               chat_history in
  ∃ srcs tokens,
    events run =
      srcs ++ map EvToken tokens
      ++ match snd run with Ok _ => [EvDone] | Raise _ => [] end
    ∧ (srcs = [] ∨ include_sources = true ∧ ∃ data, srcs = [EvSources data]).
Proof.
  cbn zeta. unfold query, get_retriever, calling, yield, stream_tokens.
  destruct get_vectorstore as [[]|e];
    [|by exists [], []; split; [|left]].
  destruct (as_retriever _) as [[]|e];
    [|by exists [], []; split; [|left]].
  cbn [mbind Run_bind mret Run_ret app].
  destruct (retriever_invoke _ question) as [docs|e];
    [|by exists [], []; split; [|left]].
  cbn [mbind Run_bind mret Run_ret app].
  exists (if include_sources then [EvSources (map source_of docs)] else []).
  destruct (match chat_history with
            | Some h => history_messages h
            | None => Ok []
            end) as [messages|e].
  - destruct stream.
    + destruct (chat_astream _) as [chunks failure].
      exists (filter (λ c, c ≠ "") chunks). split.
      * destruct include_sources, failure; unfold events; cbn;
          rewrite ?omap_app; cbn; rewrite ?app_nil_r; repeat f_equal;
          induction (filter _ chunks) as [|c cs IH]; cbn; congruence.
      * destruct include_sources; [right; eauto|by left].
    + destruct (chat_ainvoke _) as [response|e].
      * exists [response]. destruct include_sources; cbn;
          (split; [reflexivity|]); [right; eauto|by left].
      * exists []. destruct include_sources; cbn;
          (split; [reflexivity|]); [right; eauto|by left].
  - exists []. destruct include_sources; cbn;
      (split; [reflexivity|]); [right; eauto|by left].
Qed.

(** C1 (amended). For every query, the events [query] yields are: at
    most one [sources] event, none when the caller opted out, then the
    [token] events, then a [done] event exactly when the run ends
    without an exception, and nothing after it. When the vector store,
    the retriever and the chat model answer and the conversion of the
    chat history raises no [KeyError], the run ends without an exception
    and the events are: the [sources] event if and only if
    [include_sources], then the [token] events (one per non-empty chunk
    of the stream, in order, or the single response in batch mode), then
    one [done] event, which is the last. *)
Theorem query_event_sequence `{Gateways} (settings : Settings)
    (question : string) (stream include_sources : bool) (k : option Z)
    (search_type : string) (chat_history : option (list (gmap string string))) :
  let run := query settings question stream include_sources k search_type
               chat_history in
  (∃ srcs tokens,
     events run =
       srcs ++ map EvToken tokens
       ++ match snd run with Ok _ => [EvDone] | Raise _ => [] end
     ∧ (srcs = [] ∨ include_sources = true ∧ ∃ data, srcs = [EvSources data]))
  ∧
  (∀ (docs : list Document) (messages : list message),
     let retriever :=
       {| search_type := search_type;
          search_k := int_or k (RETRIEVAL_K settings) |} in
     let prompt_messages :=
       qa_format_messages (_format_docs docs) question messages in
     get_vectorstore = Ok tt →
     as_retriever retriever = Ok tt →
     retriever_invoke retriever question = Ok docs →
     match chat_history with
     | Some h => history_messages h
     | None => Ok []
     end = Ok messages →
     (if stream then snd (chat_astream prompt_messages) = None
      else ∃ response, chat_ainvoke prompt_messages = Ok response) →
     snd run = Ok tt ∧
     ∃ tokens,
       events run =
         (if include_sources then [EvSources (map source_of docs)] else [])
         ++ map EvToken tokens ++ [EvDone]
       ∧ tokens =
           if stream
           then filter (λ c, c ≠ "") (fst (chat_astream prompt_messages))
           else match chat_ainvoke prompt_messages with
                | Ok response => [response]
                | Raise _ => []
                end).
Proof.
  intros run. split; [apply query_events_shape|].
  intros docs messages retriever prompt_messages Hstore Hretriever Hdocs Hhist
    Hgen.
  subst run prompt_messages retriever.
  unfold query, get_retriever, calling, yield, stream_tokens.
  rewrite Hstore, Hretriever. cbn [mbind Run_bind mret Run_ret app].
  rewrite Hdocs. cbn [mbind Run_bind mret Run_ret app].
  rewrite Hhist.
  destruct stream.
  - destruct (chat_astream _) as [chunks failure] eqn:Hstream.
    cbn in Hgen. subst failure.
    split; [by destruct include_sources|].
    eexists; split; [|reflexivity].
    destruct include_sources; unfold events; cbn;
      rewrite omap_app; cbn; repeat f_equal;
      induction (filter _ chunks) as [|c cs IH]; cbn; congruence.
  - destruct Hgen as [response Hresp]. rewrite Hresp.
    destruct include_sources; cbn; (split; [reflexivity|]);
      eexists; (split; [|reflexivity]); reflexivity.
Qed.

Lemma query_event_sequence_witness :
  events (@query example_gateways
            example_settings "What is the capital of France?" true true
            (Some 1) "similarity" None)
  = [EvSources [source_of paris]; EvToken "Pa"; EvToken "ris"; EvDone].
Proof.
  destruct (proj2 (@query_event_sequence example_gateways example_settings
                     "What is the capital of France?" true true (Some 1)
                     "similarity" None) [paris] [])
    as (_ & tokens & Hevents & Htokens).
  - reflexivity.
  - reflexivity.
  - reflexivity.
  - reflexivity.
  - reflexivity.
  - rewrite Hevents, Htokens. reflexivity.
Defined.

(** A history entry with a role and no content, every collaborator
    answering: the run yields the [sources] event and ends with
    [KeyError('content')], without any [token] or [done] event. *)
Lemma query_history_without_content :
  let run :=
    @query example_gateways example_settings
      "What is the capital of France?" true true (Some 1) "similarity"
      (Some [{["role" := "user"]}]) in
  events run = [EvSources [source_of paris]] ∧
  snd run = Raise (KeyError "content").
Proof. cbn zeta. split; reflexivity. Qed.

(** When the retriever cannot reach the vector store the run ends with
    the exception and yields no event at all. *)
Example query_retriever_down :
  @query unavailable example_settings "q" true true None "similarity" None
  = ([CallRetriever {| search_type := "similarity"; search_k := 5 |} "q"],
     Raise (ExternalError "connection refused")).
Proof. reflexivity. Qed.

(** C7. With an empty [chat_history] ([None] or [[]]) the first call
    [query] makes to a collaborator is the retrieval, with the question
    as given; the only other call is the generation call on the QA
    prompt, made after the documents came back. No call rewrites the
    question. *)
Theorem query_retrieves_question_unchanged `{Gateways} (settings : Settings)
    (question : string) (stream include_sources : bool) (k : option Z)
    (search_type : string) (chat_history : option (list (gmap string string))) :
  chat_history = None ∨ chat_history = Some [] →
  gateway_calls
    (query settings question stream include_sources k search_type chat_history)
  = match snd (get_retriever settings search_type k) with
    | Ok retriever =>
        CallRetriever retriever question ::
        match retriever_invoke retriever question with
        | Ok docs =>
            let prompt_messages :=
              qa_format_messages (_format_docs docs) question [] in
            [if stream then CallAstream prompt_messages
             else CallAinvoke prompt_messages]
        | Raise _ => []
        end
    | Raise _ => []
    end.
Proof.
  intros Hempty.
  unfold query, get_retriever, gateway_calls, calling, yield, stream_tokens.
  destruct get_vectorstore as [[]|e]; [|reflexivity].
  destruct (as_retriever _) as [[]|e]; [|reflexivity].
  cbn [mbind Run_bind mret Run_ret app snd].
  destruct (retriever_invoke _ question) as [docs|e]; [|reflexivity].
  cbn [mbind Run_bind mret Run_ret].
  assert (Hhist : match chat_history with
                  | Some h => history_messages h
                  | None => Ok []
                  end = Ok []) by (destruct Hempty as [-> | ->]; reflexivity).
  rewrite Hhist.
  destruct stream.
  - destruct (chat_astream _) as [chunks failure].
    destruct include_sources, failure; cbn;
      rewrite ?app_nil_r, ?List.filter_app, ?calls_tokens; reflexivity.
  - destruct (chat_ainvoke _); destruct include_sources; reflexivity.
Qed.

Lemma query_retrieves_question_unchanged_witness :
  gateway_calls
    (@query example_gateways example_settings
       "What is the capital of France?" true false (Some 1) "similarity"
       (Some []))
  = [CallRetriever {| search_type := "similarity"; search_k := 1 |}
       "What is the capital of France?";
     CallAstream
       (qa_format_messages (_format_docs [paris])
          "What is the capital of France?" [])].
Proof.
  rewrite (@query_retrieves_question_unchanged example_gateways);
    [|by right].
  reflexivity.
Defined.

End Orchestrator.

(** ** The routes *)

Section RouteCalls.
Import Chunking(example_settings).
Import Routes.

(** C9. For every request, the generator behind [POST /chat/] ends with
    the [TypeError] of the call [rag.query(..., filters=...)]: [query]
    has no parameter [filters]. It produces no frame, so no token
    stream, whatever the collaborators would answer. *)
Theorem chat_raises_type_error `{Rag.Gateways} (settings : Settings)
    (request : ChatRequest) :
  ¬ has_parameter query_signature "filters" ∧
  chat settings request
  = ([], Raise (TypeError
                  "query() got an unexpected keyword argument 'filters'")).
Proof. split; [by vm_compute|reflexivity]. Qed.

(** The same service method called as [chat_sync] does, without
    [filters], binds and runs. *)
Example chat_sync_query_runs :
  @chat_sync_query Rag.example_gateways example_settings
    {| message := "What is the capital of France?"; conversation_id := None;
       include_sources := false; filters := None |}
  = ([Rag.CallRetriever
        {| Rag.search_type := "similarity"; Rag.search_k := 5 |}
        "What is the capital of France?";
      Rag.CallAinvoke
        (Rag.qa_format_messages (Rag._format_docs [Rag.paris])
           "What is the capital of France?" []);
      Rag.Yield (Rag.EvToken "Paris"); Rag.Yield Rag.EvDone],
     Ok tt).
Proof. reflexivity. Qed.

(** C10. For every request, [POST /rag/index] calls
    [rag.index_documents(texts=, metadatas=, collection=)], whose
    parameters are [documents] and [collection], and [POST /rag/search]
    calls [rag.search(..., score_threshold=...)], which has no such
    parameter: both calls raise [TypeError] before any collaborator is
    called. *)
Theorem rag_routes_raise_type_error `{Rag.Gateways}
    (index_request : IndexRequest) (search_request : SearchRequest) :
  (¬ has_parameter index_documents_signature "texts" ∧
   ¬ has_parameter index_documents_signature "metadatas" ∧
   has_parameter index_documents_signature "documents") ∧
  ¬ has_parameter search_signature "score_threshold" ∧
  index_documents index_request
  = ([], Raise (TypeError
       "index_documents() got an unexpected keyword argument 'texts'")) ∧
  search search_request
  = ([], Raise (TypeError
       "search() got an unexpected keyword argument 'score_threshold'")).
Proof.
  split; [by vm_compute|]. split; [by vm_compute|].
  split; reflexivity.
Qed.

(** Binding alone decides: were [texts] and [metadatas] accepted,
    [documents] would still be missing. *)
Example index_documents_missing_documents :
  bind "index_documents" index_documents_signature [("collection", PNone)]
  = Raise (TypeError
      "index_documents() missing 1 required positional argument: 'documents'").
Proof. reflexivity. Qed.

End RouteCalls.

(** ** More on the chunking service *)

Section ChunkingService.
Import Chunking.
Context `{L : LangChain}.

Lemma append_assoc (a b c : string) : (a +:+ b) +:+ c = a +:+ (b +:+ c).
Proof.
  induction a as [|x a IH]; [done|].
  change (String x ((a +:+ b) +:+ c) = String x (a +:+ (b +:+ c))).
  by rewrite IH.
Qed.

Lemma underscore_inside (a b : string) :
  ¬ no_underscore (a +:+ String "_" b).
Proof.
  induction a as [|x a IH].
  - change (¬ no_underscore (String "_" b)). by intros [? _].
  - change (¬ no_underscore (String x (a +:+ String "_" b))).
    intros [_ ?]. by apply IH.
Qed.

(** The last [_] of a string cuts it in one way only. *)
Lemma last_underscore_split s1 : ∀ s2 t1 t2,
  no_underscore t1 → no_underscore t2 →
  s1 +:+ String "_" t1 = s2 +:+ String "_" t2 → s1 = s2 ∧ t1 = t2.
Proof.
  induction s1 as [|c s1 IH]; intros [|c' s2] t1 t2 H1 H2 Heq.
  - change (String "_" t1 = String "_" t2) in Heq. by injection Heq as ->.
  - change (String "_" t1 = String c' (s2 +:+ String "_" t2)) in Heq.
    injection Heq as _ ->. by apply underscore_inside in H1.
  - change (String c (s1 +:+ String "_" t1) = String "_" t2) in Heq.
    injection Heq as _ <-. by apply underscore_inside in H2.
  - change (String c (s1 +:+ String "_" t1)
            = String c' (s2 +:+ String "_" t2)) in Heq.
    injection Heq as -> Heq. by destruct (IH _ _ _ H1 H2 Heq) as [-> ->].
Qed.

Lemma cache_key_eq_inv (strategy strategy' : string)
    (size size' overlap overlap' : Z) :
  cache_key strategy size overlap = cache_key strategy' size' overlap' →
  strategy = strategy' ∧ size = size' ∧ overlap = overlap'.
Proof.
  unfold cache_key. intros Heq.
  change ((strategy +:+ String "_" (pretty size +:+ String "_" (pretty overlap)))
          = strategy' +:+
              String "_" (pretty size' +:+ String "_" (pretty overlap')))
    in Heq.
  change (String "_" (pretty size +:+ String "_" (pretty overlap)))
    with ("_" +:+ pretty size +:+ String "_" (pretty overlap)) in Heq.
  change (String "_" (pretty size' +:+ String "_" (pretty overlap')))
    with ("_" +:+ pretty size' +:+ String "_" (pretty overlap')) in Heq.
  rewrite <- !append_assoc in Heq.
  apply last_underscore_split in Heq as [Heq Hoverlap];
    [|apply pretty_Z_no_underscore..].
  rewrite !append_assoc in Heq.
  apply last_underscore_split in Heq as [-> Hsize];
    [|apply pretty_Z_no_underscore..].
  by apply (inj pretty) in Hsize, Hoverlap.
Qed.

(** X1. The cache key [f"{strategy}_{chunk_size}_{chunk_overlap}"] is
    injective: two triples with the same key are the same triple,
    whatever the strategy string is (also one that contains [_]), so two
    configurations never share a cache entry. *)
Theorem cache_key_injective (strategy strategy' : string)
    (size size' overlap overlap' : Z) :
  cache_key strategy size overlap = cache_key strategy' size' overlap' ↔
  strategy = strategy' ∧ size = size' ∧ overlap = overlap'.
Proof.
  split; [apply cache_key_eq_inv|by intros (-> & -> & ->)].
Qed.

Lemma known_strategy_cases strategy :
  known_strategy strategy = true →
  strategy = "recursive" ∨ strategy = "character" ∨ strategy = "token" ∨
  strategy = "markdown" ∨ strategy = "html" ∨ strategy = "semantic".
Proof.
  unfold known_strategy. rewrite !orb_true_iff, !String.eqb_eq. tauto.
Qed.

Lemma _create_splitter_unknown strategy size overlap kw w :
  known_strategy strategy = false →
  _create_splitter strategy size overlap kw w
  = (Raise (ValueError ("Unknown chunking strategy: " +:+ strategy)), w).
Proof.
  unfold known_strategy, _create_splitter. rewrite !orb_false_iff.
  by intros (((((-> & ->) & ->) & ->) & ->) & ->).
Qed.

Lemma _create_splitter_matches strategy size overlap kw w s w' :
  _create_splitter strategy size overlap kw w = (Ok s, w') →
  kind_matches strategy size overlap (kind s).
Proof.
  unfold _create_splitter.
  destruct (String.eqb_spec strategy "recursive") as [->|_];
    [by intros ->%construct_kind|].
  destruct (String.eqb_spec strategy "character") as [->|_];
    [by intros ->%construct_kind|].
  destruct (String.eqb_spec strategy "token") as [->|_];
    [by intros ->%construct_kind|].
  destruct (String.eqb_spec strategy "markdown") as [->|_];
    [by intros ->%construct_kind|].
  destruct (String.eqb_spec strategy "html") as [->|_];
    [by intros ->%construct_kind|].
  destruct (String.eqb_spec strategy "semantic") as [->|_];
    [by intros ->%construct_kind|].
  done.
Qed.

Lemma kind_matches_known strategy size overlap k :
  kind_matches strategy size overlap k → known_strategy strategy = true.
Proof.
  destruct k; cbn;
    [intros [-> _]|intros [-> _]|intros [-> _]|intros ->|intros ->
    |intros [-> _]]; reflexivity.
Qed.

Lemma get_splitter_consistent strategy chunk_size chunk_overlap kw :
  preserves (λ w w', cache_consistent w → cache_consistent w')
    (get_splitter strategy chunk_size chunk_overlap kw).
Proof.
  intros w r w' Hrun Hok.
  destruct (_splitters w !! cache_key strategy
              (int_or chunk_size (CHUNK_SIZE (settings w)))
              (int_or chunk_overlap (CHUNK_OVERLAP (settings w))))
    as [s|] eqn:Hkey.
  - rewrite (get_splitter_hit _ _ _ _ _ _ Hkey) in Hrun.
    by injection Hrun as <- <-.
  - rewrite (get_splitter_miss _ _ _ _ _ Hkey) in Hrun.
    destruct (_create_splitter _ _ _ _ w) as [[s|e] w1] eqn:Hcreate;
      pose proof (_create_splitter_world _ _ _ _ _ _ _ Hcreate)
        as (_ & Hcache & _);
      injection Hrun as <- <-; intros strategy' size overlap s'; cbn;
      rewrite Hcache; [|by apply Hok].
    apply _create_splitter_matches in Hcreate.
    destruct (decide (cache_key strategy
        (int_or chunk_size (CHUNK_SIZE (settings w)))
        (int_or chunk_overlap (CHUNK_OVERLAP (settings w)))
        = cache_key strategy' size overlap)) as [Heq|Hne].
    + rewrite Heq, lookup_insert_eq. intros [= <-].
      by apply cache_key_eq_inv in Heq as (<- & <- & <-).
    + rewrite lookup_insert_ne by done. apply Hok.
Qed.

Lemma cache_consistent_reachable settings cs :
  cache_consistent (after_calls cs (new_service settings)).
Proof.
  apply (after_calls_preserved
           (λ w w', cache_consistent w → cache_consistent w')).
  - auto.
  - auto.
  - intros h w Hok strategy size overlap s. apply Hok.
  - apply get_splitter_consistent.
  - intros strategy size overlap s. cbn. by rewrite lookup_empty.
Qed.

(** X2. On a service in any state reached from a new one, a splitter
    that [get_splitter] returns is of the class of the requested
    strategy and, where the class takes them, configured with the chunk
    size and overlap in effect; a semantic splitter has its overlap
    clamped to at most 50. The cache never hands out a splitter made for
    another strategy or size. *)
Theorem get_splitter_matches_request (settings : Settings)
    (before : list call) (strategy : string)
    (chunk_size chunk_overlap : option Z) (kw : kwargs) :
  let w := after_calls before (new_service settings) in
  ∀ s w', get_splitter strategy chunk_size chunk_overlap kw w = (Ok s, w') →
    kind_matches strategy (int_or chunk_size (CHUNK_SIZE settings))
      (int_or chunk_overlap (CHUNK_OVERLAP settings)) (kind s) ∧
    (∀ ov tokens,
       kind s = SentenceTransformersTokenTextSplitter ov tokens → ov ≤ 50).
Proof.
  intros w s w' Hrun.
  assert (Hset : Chunking.settings w = settings).
  { destruct (after_calls_keeps before (new_service settings)) as [Hset _].
    exact Hset. }
  pose proof (get_splitter_cached_after _ _ _ _ _ _ _ Hrun) as Hin.
  pose proof (get_splitter_consistent _ _ _ _ _ _ _ Hrun
                (cache_consistent_reachable settings before)) as Hok.
  apply Hok in Hin. rewrite Hset in Hin. split; [done|].
  intros ov tokens Hkind. rewrite Hkind in Hin. cbn in Hin.
  destruct Hin as [_ ->]. lia.
Qed.

(** X3. On a service in any state reached from a new one, [get_splitter]
    with a strategy other than the six known ones raises
    [ValueError("Unknown chunking strategy: ...")] and leaves the
    service as it was: nothing is cached for the unknown strategy, and
    a later call raises again. *)
Theorem get_splitter_unknown_strategy (settings : Settings)
    (before : list call) (strategy : string)
    (chunk_size chunk_overlap : option Z) (kw : kwargs) :
  known_strategy strategy = false →
  let w := after_calls before (new_service settings) in
  get_splitter strategy chunk_size chunk_overlap kw w
  = (Raise (ValueError ("Unknown chunking strategy: " +:+ strategy)), w).
Proof.
  intros Hunknown w.
  destruct (_splitters w !! cache_key strategy
              (int_or chunk_size (CHUNK_SIZE (Chunking.settings w)))
              (int_or chunk_overlap (CHUNK_OVERLAP (Chunking.settings w))))
    as [s|] eqn:Hkey.
  - apply (cache_consistent_reachable settings before) in Hkey.
    apply kind_matches_known in Hkey. congruence.
  - rewrite (get_splitter_miss _ _ _ _ _ Hkey).
    by rewrite _create_splitter_unknown.
Qed.

End ChunkingService.

Section ChunkingServiceExamples.
Import Chunking.

Lemma get_splitter_matches_request_witness :
  let w :=
    @after_calls window_library
      [CallGetSplitter "recursive" (Some 300) (Some 50) space_separator]
      (new_service example_settings) in
  kind_matches "semantic" 1000 200
    (SentenceTransformersTokenTextSplitter 50 256) ∧
  fst (@get_splitter window_library "semantic" None None no_kwargs w)
  = Ok {| oid := 1; kind := SentenceTransformersTokenTextSplitter 50 256 |}.
Proof.
  cbn zeta. split; [|reflexivity].
  refine (proj1 (@get_splitter_matches_request window_library example_settings
            [CallGetSplitter "recursive" (Some 300) (Some 50) space_separator]
            "semantic" None None no_kwargs
            {| oid := 1; kind := SentenceTransformersTokenTextSplitter 50 256 |}
            _ _)).
  rewrite (surjective_pairing (get_splitter _ _ _ _ _)) at 1.
  f_equal.
Defined.

Lemma get_splitter_unknown_strategy_witness :
  let w :=
    @after_calls window_library
      [CallGetSplitter "recursive" (Some 300) (Some 50) no_kwargs]
      (new_service example_settings) in
  @get_splitter window_library "recursive_300" (Some 50) (Some 10)
    no_kwargs w
  = (Raise (ValueError "Unknown chunking strategy: recursive_300"), w).
Proof.
  cbn zeta.
  apply (@get_splitter_unknown_strategy window_library example_settings
           [CallGetSplitter "recursive" (Some 300) (Some 50) no_kwargs]
           "recursive_300" (Some 50) (Some 10) no_kwargs).
  reflexivity.
Defined.

End ChunkingServiceExamples.

(** ** More on estimates, recommendations and splitting *)

Section ChunkingBehaviour.
Import Chunking.
Context `{L : LangChain}.

(** X4. [estimate_chunks] never estimates less than one chunk (also for
    an empty text, or one shorter than the overlap, where the quotient is
    negative), and for a fixed configuration a longer text never gets a
    smaller estimate. *)
Theorem estimate_chunks_positive_monotone (settings : Settings)
    (text text' strategy : string) (chunk_size chunk_overlap : option Z) :
  let estimate t :=
    estimated_chunks
      (estimate_chunks settings t strategy chunk_size chunk_overlap) in
  1 ≤ estimate text ∧
  (len text ≤ len text' → estimate text ≤ estimate text').
Proof.
  cbn zeta. unfold estimate_chunks, floordiv. cbn [estimated_chunks].
  destruct (Z.leb_spec
    (int_or chunk_size (CHUNK_SIZE settings)
     - int_or chunk_overlap (CHUNK_OVERLAP settings)) 0) as [_|Hpos].
  - split; [lia|intros; lia].
  - split; [lia|]. intros Hlen.
    apply Z.max_le_compat_l, Z.div_le_mono; lia.
Qed.

Lemma estimate_chunks_positive_monotone_witness :
  let estimate t :=
    estimated_chunks
      (estimate_chunks example_settings t "recursive" (Some 5) (Some 1)) in
  1 ≤ estimate "" ∧ estimate "" ≤ estimate "abcdefghij".
Proof.
  destruct (estimate_chunks_positive_monotone example_settings ""
              "abcdefghij" "recursive" (Some 5) (Some 1)) as [Hone Hmono].
  split; [exact Hone|]. apply Hmono. unfold len. cbn. lia.
Defined.

(** X5. For an average document length of at least 1,
    [get_optimal_strategy] returns a usable configuration for every
    content type, known or not: [0 <= chunk_overlap < chunk_size], a
    chunk size no larger than the average length when that is below 500,
    and a strategy [_create_splitter] has a branch for. For an average
    length of 0 or less the recommended chunk size is that length
    itself, so not a positive size. *)
Theorem get_optimal_strategy_usable (content_type : string)
    (avg_doc_length : Z) :
  let r := get_optimal_strategy content_type avg_doc_length in
  known_strategy (rec_strategy r) = true ∧
  (1 ≤ avg_doc_length →
   0 ≤ rec_chunk_overlap r < rec_chunk_size r ∧
   rec_chunk_size r ≤ Z.max avg_doc_length 1500) ∧
  (avg_doc_length ≤ 0 → rec_chunk_size r = avg_doc_length).
Proof.
  cbn zeta.
  assert (Hrow :
    known_strategy (rec_strategy (recommendations content_type)) = true ∧
    0 ≤ rec_chunk_overlap (recommendations content_type)
      < rec_chunk_size (recommendations content_type) ∧
    50 ≤ rec_chunk_overlap (recommendations content_type) ∧
    500 ≤ rec_chunk_size (recommendations content_type) ≤ 1500).
  { unfold recommendations.
    repeat (destruct (String.eqb content_type _); [by cbn; lia|]).
    by cbn; lia. }
  destruct Hrow as (Hknown & Hrow & Hov & Hsz).
  unfold get_optimal_strategy, floordiv.
  destruct (Z.ltb_spec avg_doc_length 500) as [Hsmall|Hbig];
    cbn [rec_strategy rec_chunk_size rec_chunk_overlap].
  - split; [done|]. split.
    + intros Hpos.
      assert (0 ≤ avg_doc_length / 5) by (apply Z.div_pos; lia).
      assert (avg_doc_length / 5 < avg_doc_length)
        by (apply Z.div_lt; lia).
      replace (Z.min (rec_chunk_size (recommendations content_type))
                     avg_doc_length) with avg_doc_length by lia.
      lia.
    + intros Hneg. lia.
  - split; [done|]. split; [lia|lia].
Qed.

Lemma get_optimal_strategy_usable_witness :
  let r := get_optimal_strategy "poetry" 120 in
  rec_strategy r = "recursive" ∧ 0 ≤ rec_chunk_overlap r < rec_chunk_size r.
Proof.
  cbn zeta. split; [reflexivity|].
  destruct (get_optimal_strategy_usable "poetry" 120) as (_ & Hok & _).
  destruct Hok as [Hok _]; [lia|]. exact Hok.
Defined.

(** X6. The second pass of [split_text] leaves chunks that fit alone:
    when no structural chunk is longer than [chunk_size], the loop
    returns the same documents in the same order, calls the recursive
    splitter for none of them and changes nothing. *)
Theorem second_pass_identity (recursive_splitter : splitter) (size : Z)
    (docs : list Document) (w : world) :
  Forall (λ d, len (page_content d) ≤ size) docs →
  second_pass recursive_splitter size docs w = (Ok docs, w).
Proof.
  induction 1 as [|d docs Hd _ IH]; [reflexivity|].
  cbn [second_pass]. unfold mbind, M_bind.
  destruct (Z.gtb_spec (len (page_content d)) size) as [Hbig|_]; [lia|].
  cbn. rewrite IH. reflexivity.
Qed.

(** X7. [split_text] with ["markdown"] or ["html"] raises [IndexError]
    when the header splitter returns no chunk at all (line 142 reads
    [chunks[0]]): it does not return an empty list. *)
Theorem split_text_no_chunk_raises (text strategy : string)
    (chunk_size chunk_overlap : option Z) (metadata : option nat)
    (kw : kwargs) (w w1 : world) (s : splitter) :
  is_structural strategy = true →
  get_splitter strategy chunk_size chunk_overlap kw w = (Ok s, w1) →
  (∀ h, ∃ h', header_split_text s text h = (Ok (ChunkDocs []), h') ∨
              header_split_text s text h = (Ok (ChunkStrs []), h')) →
  fst (split_text text strategy chunk_size chunk_overlap metadata kw w)
  = Raise IndexError.
Proof.
  intros Hstruct Hsplitter Hempty. unfold split_text, mbind, M_bind.
  rewrite Hsplitter.
  destruct (metadata_or_empty metadata w1) as [[l|e] w2] eqn:Hl.
  2:{ unfold metadata_or_empty, mbind, M_bind, get_world, alloc, mret, M_ret
        in Hl.
      destruct metadata as [l0|]; [|done].
      destruct (store w1 !! l0); [destruct (decide _)|]; done. }
  rewrite Hstruct. unfold lift_heap.
  destruct (Hempty (store w2)) as [h' [-> | ->]]; reflexivity.
Qed.

Context `{!LangChainLaws L}.

(** X8. [split_text] does not touch a metadata dict that existed before
    the call, the caller's included: the store it leaves extends the
    store it found, and every returned chunk owns a dict allocated
    during the call (the library returning documents that own their
    dict). *)
Theorem split_text_keeps_existing_metadata (text strategy : string)
    (chunk_size chunk_overlap : option Z) (metadata : option nat)
    (kw : kwargs) (w w' : world) (docs : list Document) :
  split_text text strategy chunk_size chunk_overlap metadata kw w
    = (Ok docs, w') →
  (∀ l m, store w !! l = Some m → store w' !! l = Some m) ∧
  Forall (λ d, (length (store w) ≤ Chunking.metadata d
                < length (store w'))%nat) docs ∧
  NoDup (Chunking.metadata <$> docs).
Proof.
  intros Hrun. apply split_text_Ok in Hrun as [(Hpre & Hnodup & Hall) _].
  split; [|done]. intros l m Hl. by eapply prefix_lookup_Some.
Qed.

End ChunkingBehaviour.

Section ChunkingBehaviourExamples.
Import Chunking.

Lemma second_pass_identity_witness :
  @second_pass window_library
    {| oid := 0; kind := RecursiveCharacterTextSplitter 4 1 [""] false |}
    4 example_chunks (new_service example_settings)
  = (Ok example_chunks, new_service example_settings).
Proof.
  apply (@second_pass_identity window_library).
  repeat constructor; by vm_compute.
Defined.

Lemma split_text_no_chunk_raises_witness :
  fst (@split_text window_library "" "markdown" None None None no_kwargs
         (new_service example_settings))
  = Raise IndexError.
Proof.
  eapply (@split_text_no_chunk_raises window_library "" "markdown" None None
            None no_kwargs (new_service example_settings)).
  - reflexivity.
  - rewrite (surjective_pairing (get_splitter _ _ _ _ _)) at 1.
    f_equal.
  - intros h. exists h. by left.
Defined.

Lemma split_text_keeps_existing_metadata_witness :
  let run :=
    @split_text window_library "# a" "markdown" None None (Some 0%nat)
      no_kwargs tagged_world in
  fst run = Ok [ {| page_content := "# a"; metadata := 1 |} ] ∧
  store (snd run) !! 0%nat = Some {["source" := VStr "notes.md"]}.
Proof.
  cbn zeta. split; [reflexivity|].
  assert (Hrun :
    @split_text window_library "# a" "markdown" None None (Some 0%nat)
      no_kwargs tagged_world
    = (Ok [ {| page_content := "# a"; metadata := 1 |} ],
       snd (@split_text window_library "# a" "markdown" None None
              (Some 0%nat) no_kwargs tagged_world))).
  { rewrite (surjective_pairing (split_text _ _ _ _ _ _ _)) at 1.
    f_equal. }
  apply (proj1 (@split_text_keeps_existing_metadata window_library
                  window_library_laws _ _ _ _ _ _ _ _ _ Hrun)).
  reflexivity.
Defined.

End ChunkingBehaviourExamples.

(** ** More on the orchestrator *)

Section OrchestratorBehaviour.
Import Chunking(example_settings, value, VStr).
Import Rag.

Lemma format_from_lookup docs : ∀ (j : Z) (i : nat) doc,
  docs !! i = Some doc →
  format_from j docs !! i
  = Some ("[" +:+ pretty (j + Z.of_nat i) +:+ "]"
          +:+ match metadata doc !! "source" with
              | Some v =>
                  if truthy v then " (source: " +:+ str v +:+ ")" else ""
              | None => ""
              end
          +:+ " " +:+ page_content doc).
Proof.
  induction docs as [|d docs IH]; intros j i doc Hi; [done|].
  destruct i as [|i]; cbn in Hi.
  - injection Hi as ->. cbn [format_from]. by rewrite Z.add_0_r.
  - cbn [format_from].
    change ((?x :: format_from (j + 1) docs) !! S i)
      with (format_from (j + 1) docs !! i).
    rewrite (IH (j + 1) i doc Hi).
    by replace (j + Z.of_nat (S i)) with (j + 1 + Z.of_nat i) by lia.
Qed.

Lemma length_format_from docs : ∀ j, length (format_from j docs) = length docs.
Proof. induction docs as [|d docs IH]; intros j; cbn; [done|]. by rewrite IH. Qed.

(** X9. [_format_docs] makes one block per retrieved document, in
    retrieval order, numbered from 1: the block of the document at
    position [i] (from 0) is [[i+1]], then [ (source: s)] with [s] the
    [str] of its ["source"] metadata exactly when that entry exists and
    is truthy (nothing otherwise), then a space and the content. The
    context is these blocks joined by a blank line, so no document gives
    the empty context. *)
Theorem format_docs_citations (docs : list Document) :
  _format_docs docs
  = String.concat (Chunking.nl +:+ Chunking.nl) (format_from 1 docs) ∧
  length (format_from 1 docs) = length docs ∧
  _format_docs [] = "" ∧
  ∀ (i : nat) doc, docs !! i = Some doc →
    format_from 1 docs !! i
    = Some ("[" +:+ pretty (Z.of_nat i + 1) +:+ "]"
            +:+ match metadata doc !! "source" with
                | Some v =>
                    if truthy v then " (source: " +:+ str v +:+ ")" else ""
                | None => ""
                end
            +:+ " " +:+ page_content doc).
Proof.
  split; [reflexivity|]. split; [apply length_format_from|].
  split; [reflexivity|].
  intros i doc Hi. rewrite (format_from_lookup docs 1 i doc Hi).
  by rewrite Z.add_comm.
Qed.

Lemma format_docs_citations_witness :
  format_from 1 [{| page_content := "Lyon"; metadata := ∅ |}; paris]
    !! 1%nat
  = Some "[2] (source: geo.md) Paris is the capital of France.".
Proof.
  rewrite (proj2 (proj2 (proj2 (format_docs_citations
             [{| page_content := "Lyon"; metadata := ∅ |}; paris])))
             1%nat paris eq_refl).
  reflexivity.
Defined.

(** X10. The conversion of [chat_history] keeps the entries whose role
    is ["user"] or ["assistant"], in order, as human and AI messages,
    and drops every other entry (also one without a role); it raises
    [KeyError('content')] exactly when one of the kept entries has no
    ["content"]. *)
Theorem history_messages_spec (chat_history : list (gmap string string)) :
  history_messages chat_history =
    if forallb (λ msg, negb (spoken msg) || bool_decide (is_Some (msg !! "content")))
         chat_history
    then Ok (omap to_message chat_history)
    else Raise (KeyError "content").
Proof.
  induction chat_history as [|msg rest IH]; [reflexivity|].
  cbn [history_messages forallb]. rewrite IH. clear IH.
  change (omap to_message (msg :: rest))
    with (match to_message msg with
          | Some m => m :: omap to_message rest
          | None => omap to_message rest
          end).
  destruct (forallb _ rest); unfold spoken, to_message;
    destruct (msg !! "content") as [c|] eqn:Hc;
    repeat case_bool_decide; repeat case_decide;
    cbn; try done; try congruence;
    match goal with H : ¬ is_Some (Some _) |- _ => by destruct H
                  | H : is_Some None |- _ => by destruct H end.
Qed.

Lemma concat_nonempty (l : list string) :
  String.concat "" (filter (λ c, c ≠ "") l) = String.concat "" l.
Proof.
  assert (Hcons : ∀ (x : string) l, String.concat "" (x :: l)
                                    = x +:+ String.concat "" l).
  { intros x [|y l']; cbn; [|done].
    induction x as [|a x IHx]; [done|].
    change (String a x = String a (x +:+ "")). by rewrite <- IHx. }
  induction l as [|c l IH]; [done|].
  rewrite filter_cons. destruct (decide (c ≠ "")) as [Hc|Hc].
  - by rewrite !Hcons, IH.
  - apply dec_stable in Hc as ->. by rewrite Hcons, IH.
Qed.

(** X11. In streaming mode [query] yields no [token] event with empty
    data, and dropping the empty chunks loses no text: the data of the
    [token] events, joined, is the joined content of all the chunks the
    chat model streamed (up to the point where the stream failed, if it
    did). In batch mode it yields exactly one [token] event, the whole
    response, also when that is empty. *)
Theorem query_token_text `{Gateways} (settings : Settings)
    (question : string) (stream include_sources : bool) (k : option Z)
    (search_type : string) (chat_history : option (list (gmap string string)))
    (docs : list Document) (messages : list message) :
  let retriever :=
    {| search_type := search_type;
       search_k := int_or k (RETRIEVAL_K settings) |} in
  let prompt_messages :=
    qa_format_messages (_format_docs docs) question messages in
  get_vectorstore = Ok tt →
  as_retriever retriever = Ok tt →
  retriever_invoke retriever question = Ok docs →
  match chat_history with
  | Some h => history_messages h
  | None => Ok []
  end = Ok messages →
  let tokens :=
    token_data (events (query settings question stream include_sources k
                          search_type chat_history)) in
  if stream then
    Forall (λ t, t ≠ "") tokens ∧
    String.concat "" tokens
    = String.concat "" (fst (chat_astream prompt_messages))
  else
    tokens = match chat_ainvoke prompt_messages with
             | Ok response => [response]
             | Raise _ => []
             end.
Proof.
  intros retriever prompt_messages Hstore Hretriever Hdocs Hhist tokens.
  subst tokens prompt_messages retriever.
  unfold query, get_retriever, calling, yield, stream_tokens.
  rewrite Hstore, Hretriever. cbn [mbind Run_bind mret Run_ret app].
  rewrite Hdocs. cbn [mbind Run_bind mret Run_ret app].
  rewrite Hhist.
  destruct stream.
  - destruct (chat_astream _) as [chunks failure] eqn:Hstream.
    assert (Hyield : ∀ cs : list string,
      omap (λ a, match a with Yield e => Some e | _ => None end)
        (map (λ c, Yield (EvToken c)) cs) = map EvToken cs).
    { induction cs as [|c cs IH]; cbn; congruence. }
    assert (Hdata : ∀ cs : list string,
      omap (λ e, match e with EvToken data => Some data | _ => None end)
        (map EvToken cs) = cs).
    { induction cs as [|c cs IH]; cbn; congruence. }
    assert (Hall : Forall (λ t, t ≠ "") (filter (λ c : string, c ≠ "") chunks)).
    { apply Forall_forall. by intros t [? _]%list_elem_of_filter. }
    cbn [fst].
    destruct include_sources, failure; unfold events, token_data; cbn;
      rewrite ?omap_app, ?Hyield; cbn; rewrite ?omap_app, ?Hdata; cbn;
      rewrite ?app_nil_r; (split; [done|apply concat_nonempty]).
  - destruct (chat_ainvoke _) as [response|e];
      by destruct include_sources.
Qed.

Lemma query_token_text_witness :
  let tokens :=
    token_data
      (events (@query example_gateways example_settings
                 "What is the capital of France?" true true (Some 1)
                 "similarity" None)) in
  Forall (λ t, t ≠ "") tokens ∧
  String.concat "" tokens = String.concat "" ["Pa"; ""; "ris"].
Proof.
  exact (@query_token_text example_gateways example_settings
           "What is the capital of France?" true true (Some 1)
           "similarity" None [paris] [] eq_refl eq_refl eq_refl eq_refl).
Defined.

(** X12. [query] never rewrites the question, whatever the chat history
    is: the retrieval call carries the question as given, it is the
    first call to a collaborator, and the history only reaches the one
    generation call, between the system message and the question. A
    history entry without content ends the run after the retrieval,
    before any generation call. *)
Theorem query_calls_any_history `{Gateways} (settings : Settings)
    (question : string) (stream include_sources : bool) (k : option Z)
    (search_type : string) (chat_history : option (list (gmap string string))) :
  gateway_calls
    (query settings question stream include_sources k search_type chat_history)
  = match snd (get_retriever settings search_type k) with
    | Ok retriever =>
        CallRetriever retriever question ::
        match retriever_invoke retriever question,
              match chat_history with
              | Some h => history_messages h
              | None => Ok []
              end with
        | Ok docs, Ok messages =>
            let prompt_messages :=
              SystemMessage (qa_system (_format_docs docs))
              :: messages ++ [HumanMessage question] in
            [if stream then CallAstream prompt_messages
             else CallAinvoke prompt_messages]
        | _, _ => []
        end
    | Raise _ => []
    end.
Proof.
  unfold query, get_retriever, gateway_calls, calling, yield, stream_tokens.
  destruct get_vectorstore as [[]|e]; [|reflexivity].
  destruct (as_retriever _) as [[]|e]; [|reflexivity].
  cbn [mbind Run_bind mret Run_ret app snd].
  destruct (retriever_invoke _ question) as [docs|e]; [|reflexivity].
  cbn [mbind Run_bind mret Run_ret].
  destruct (match chat_history with
            | Some h => history_messages h
            | None => Ok []
            end) as [messages|e]; [|by destruct include_sources].
  destruct stream.
  - destruct (chat_astream _) as [chunks failure].
    destruct include_sources, failure; cbn;
      rewrite ?app_nil_r, ?List.filter_app, ?calls_tokens; reflexivity.
  - destruct (chat_ainvoke _); destruct include_sources; reflexivity.
Qed.

Lemma documents_from_spec texts metadatas : ∀ (j i : nat) text,
  texts !! i = Some text →
  documents_from j texts metadatas !! i
  = Some {| page_content := text;
            metadata := default ∅ (metadatas ≫= (λ ms, ms !! (j + i)%nat)) |}.
Proof.
  induction texts as [|t texts IH]; intros j i text Hi; [done|].
  destruct i as [|i]; cbn in Hi.
  - injection Hi as ->. cbn. rewrite Nat.add_0_r. by destruct metadatas.
  - cbn [documents_from].
    change ((?d :: documents_from (S j) texts metadatas) !! S i)
      with (documents_from (S j) texts metadatas !! i).
    rewrite (IH (S j) i text Hi).
    by replace (S j + i)%nat with (j + S i)%nat by lia.
Qed.

Lemma length_documents_from texts metadatas : ∀ j,
  length (documents_from j texts metadatas) = length texts.
Proof.
  induction texts as [|t texts IH]; intros j; cbn; [done|]. by rewrite IH.
Qed.

(** X13. [index_texts] sends one document per text to the vector store,
    in order: document [i] has text [i] as content and [metadatas[i]] as
    metadata when that exists, an empty dict otherwise (no metadatas, or
    fewer than texts); metadatas beyond the last text are ignored. When
    the store accepts them the count returned is the number of texts;
    when it raises, the exception is passed on and no count is
    returned. *)
Theorem index_texts_documents `{Gateways} (texts : list string)
    (metadatas : option (list (gmap string value)))
    (collection : option string) :
  let documents := documents_from 0 texts metadatas in
  length documents = length texts ∧
  (∀ (i : nat) text, texts !! i = Some text →
     documents !! i
     = Some {| page_content := text;
               metadata :=
                 default ∅ (metadatas ≫= (λ ms, ms !! i)) |}) ∧
  index_texts texts metadatas collection
  = match get_vectorstore with
    | Ok _ =>
        ([CallAddDocuments documents collection],
         match add_documents documents collection with
         | Ok _ => Ok (Z.of_nat (length texts))
         | Raise e => Raise e
         end)
    | Raise e => ([], Raise e)
    end.
Proof.
  cbn zeta. split; [apply length_documents_from|]. split.
  - intros i text Hi. by rewrite (documents_from_spec _ _ 0 i text Hi).
  - unfold index_texts, index_documents, calling.
    destruct get_vectorstore as [[]|e]; [|reflexivity].
    cbn [mbind Run_bind mret Run_ret app].
    destruct (add_documents _ _) as [[]|e]; [|reflexivity].
    cbn. by rewrite length_documents_from.
Qed.

Lemma index_texts_documents_witness :
  documents_from 0 ["Paris is the capital of France."; "Lyon"]
    (Some [{["source" := VStr "geo.md"]}]) !! 1%nat
  = Some {| page_content := "Lyon"; metadata := ∅ |}.
Proof.
  destruct (@index_texts_documents example_gateways
              ["Paris is the capital of France."; "Lyon"]
              (Some [{["source" := VStr "geo.md"]}]) None)
    as (_ & Hdocs & _).
  exact (Hdocs 1%nat "Lyon" eq_refl).
Defined.

End OrchestratorBehaviour.

(** ** The Qdrant service *)

Section QdrantService.
Import Qdrant.
Context `{C : Client}.

(** X14. Without embeddings ([set_embeddings] never called) a
    [get_vectorstore] call that passes none raises [ValueError] and
    leaves the service as it was, also when a vector store built from
    explicitly passed embeddings is cached: such a store is cached by
    the call that built it, but [self._embeddings] stays unset. *)
Theorem get_vectorstore_needs_embeddings (s : service)
    (collection collection' : option string) (embeddings : nat) :
  _embeddings s = None →
  (∃ msg, get_vectorstore collection None s = (Raise (ValueError msg), s)) ∧
  (vectorstore_init (str_or collection (QDRANT_COLLECTION (settings s)))
     embeddings = Ok tt →
   ∃ vs s1,
     get_vectorstore collection (Some embeddings) s = (Ok vs, s1) ∧
     _vectorstore s1 = Some vs ∧ embedding vs = embeddings ∧
     ∃ msg, get_vectorstore collection' None s1
            = (Raise (ValueError msg), s1)).
Proof.
  intros Hnone. split.
  - unfold get_vectorstore. rewrite Hnone. eauto.
  - intros Hinit. unfold get_vectorstore at 1. cbn.
    assert (Hbuild : ∀ o : option VectorStore,
      match o, Some embeddings with
      | Some vs, None => (Ok vs, s)
      | _, _ =>
          match vectorstore_init
                  (str_or collection (QDRANT_COLLECTION (settings s)))
                  embeddings with
          | Raise e => (Raise e, s)
          | Ok _ =>
              (Ok {| collection_name :=
                       str_or collection (QDRANT_COLLECTION (settings s));
                     embedding := embeddings; store_oid := next_oid s |},
               {| settings := settings s;
                  _vectorstore :=
                    Some {| collection_name :=
                              str_or collection
                                (QDRANT_COLLECTION (settings s));
                            embedding := embeddings;
                            store_oid := next_oid s |};
                  _embeddings := _embeddings s; next_oid := S (next_oid s) |})
          end
      end
      = (Ok {| collection_name :=
                 str_or collection (QDRANT_COLLECTION (settings s));
               embedding := embeddings; store_oid := next_oid s |},
         {| settings := settings s;
            _vectorstore :=
              Some {| collection_name :=
                        str_or collection (QDRANT_COLLECTION (settings s));
                      embedding := embeddings; store_oid := next_oid s |};
            _embeddings := _embeddings s; next_oid := S (next_oid s) |})).
    { intros [vs|]; by rewrite Hinit. }
    rewrite Hbuild. eexists _, _. split; [reflexivity|].
    split; [reflexivity|]. split; [reflexivity|].
    unfold get_vectorstore. cbn. rewrite Hnone. eauto.
Qed.

(** X15. Once a vector store is cached, [get_vectorstore] without
    embeddings returns that same object whatever collection it is asked
    for: the [collection] argument only counts for the call that builds
    the store. *)
Theorem get_vectorstore_ignores_collection (s s1 : service)
    (collection : option string) (vs : VectorStore) :
  get_vectorstore collection None s = (Ok vs, s1) →
  ∀ collection', get_vectorstore collection' None s1 = (Ok vs, s1).
Proof.
  unfold get_vectorstore. cbn.
  destruct (_embeddings s) as [emb|] eqn:Hemb; [|done].
  destruct (_vectorstore s) as [vs0|] eqn:Hvs.
  - intros [= <- <-] collection'. by rewrite Hemb, Hvs.
  - destruct (vectorstore_init _ emb); [|done].
    intros [= <- <-] collection'. reflexivity.
Qed.

(** X16. [set_embeddings] drops the cached vector store: the next
    [get_vectorstore] builds a new one for the collection it names (the
    configured one when none is named) with the embeddings just set. *)
Theorem set_embeddings_rebuilds (s : service) (embeddings : nat)
    (collection : option string) :
  let name := str_or collection (QDRANT_COLLECTION (settings s)) in
  vectorstore_init name embeddings = Ok tt →
  let s1 := snd (set_embeddings embeddings s) in
  ∃ s2,
    get_vectorstore collection None s1
    = (Ok {| collection_name := name; embedding := embeddings;
             store_oid := next_oid s |}, s2) ∧
    _vectorstore s2
    = Some {| collection_name := name; embedding := embeddings;
              store_oid := next_oid s |}.
Proof.
  intros name Hinit s1. subst s1 name. unfold get_vectorstore. cbn.
  rewrite Hinit. eauto.
Qed.

(** X17. [delete_collection] forgets the cached vector store only when
    the deleted name is the configured collection. After deleting
    another collection the service still hands out the store built for
    it; after deleting the configured one the next call builds a new
    store. *)
Theorem delete_collection_cache (s s1 : service) (name : string)
    (vs : VectorStore) :
  client_delete_collection name = Ok tt →
  get_vectorstore (Some name) None s = (Ok vs, s1) →
  let s2 := snd (delete_collection name s1) in
  if String.eqb name (QDRANT_COLLECTION (settings s1))
  then _vectorstore s2 = None
  else get_vectorstore (Some name) None s2 = (Ok vs, s2).
Proof.
  intros Hdelete Hget s2. subst s2.
  assert (Hcached : _vectorstore s1 = Some vs).
  { revert Hget. unfold get_vectorstore. cbn.
    destruct (_embeddings s) as [emb|]; [|done].
    destruct (_vectorstore s) as [vs0|] eqn:Hvs.
    - by intros [= <- <-].
    - destruct (vectorstore_init _ emb); [|done]. by intros [= <- <-]. }
  pose proof (get_vectorstore_ignores_collection _ _ _ _ Hget (Some name))
    as Hagain.
  unfold delete_collection. rewrite Hdelete, Hcached. cbn [snd].
  destruct (String.eqb name (QDRANT_COLLECTION (settings s1)));
    [reflexivity|exact Hagain].
Qed.

(** X18. [ensure_collection] asks the client to create a collection
    exactly when the listing succeeds and does not contain its name (the
    configured name when none or [""] is given); the request then
    carries the vector size given, 768 by default. It never creates a
    collection that is listed. *)
Theorem ensure_collection_creates_when_absent (s : service)
    (collection : option string) (vector_size : option Z)
    (name : string) (size : Z) :
  CreateCollection name size ∈ fst (ensure_collection collection vector_size s)
  ↔ name = str_or collection (QDRANT_COLLECTION (settings s)) ∧
    size = default 768 vector_size ∧
    ∃ names, get_collections = Ok names ∧ name ∉ names.
Proof.
  unfold ensure_collection.
  destruct get_collections as [names|e].
  - destruct (existsb _ names) eqn:Hex; cbn [negb fst].
    + split.
      * intros Hin. apply list_elem_of_singleton in Hin. done.
      * intros (-> & _ & names' & [= <-] & Hnotin).
        apply existsb_exists in Hex as (x & Hx & Heq).
        apply String.eqb_eq in Heq as <-.
        by apply list_elem_of_In in Hx.
    + split.
      * intros Hin. apply elem_of_cons in Hin as [|Hin]; [done|].
        apply list_elem_of_singleton in Hin. injection Hin as -> ->.
        split; [done|]. split; [done|]. exists names. split; [done|].
        intros Hin%list_elem_of_In.
        assert (existsb (String.eqb (str_or collection
                  (QDRANT_COLLECTION (settings s)))) names = true);
          [|congruence].
        apply existsb_exists. eexists. split; [exact Hin|].
        apply String.eqb_refl.
      * intros (-> & -> & _). apply elem_of_cons. right.
        by apply list_elem_of_singleton.
  - cbn. split.
    + intros Hin. by apply list_elem_of_singleton in Hin.
    + by intros (_ & _ & names & ? & _).
Qed.

End QdrantService.

Section QdrantServiceExamples.
Import Qdrant.

Lemma get_vectorstore_needs_embeddings_witness :
  ∃ msg,
    @get_vectorstore (listing []) (Some "notes") None
      (new_service example_settings)
    = (Raise (ValueError msg), new_service example_settings).
Proof.
  exact (proj1 (@get_vectorstore_needs_embeddings (listing [])
                  (new_service example_settings) (Some "notes") None 0
                  eq_refl)).
Defined.

Lemma get_vectorstore_ignores_collection_witness :
  let s1 := snd (@set_embeddings 7 (new_service example_settings)) in
  let s2 := snd (@get_vectorstore (listing []) None None s1) in
  @get_vectorstore (listing []) (Some "notes") None s2
  = (Ok {| collection_name := "documents"; embedding := 7; store_oid := 0 |},
     s2).
Proof.
  cbn zeta.
  apply (@get_vectorstore_ignores_collection (listing [])
           (snd (@set_embeddings 7 (new_service example_settings))) _ None).
  reflexivity.
Defined.

Lemma set_embeddings_rebuilds_witness :
  ∃ s2,
    @get_vectorstore (listing []) (Some "notes") None
      (snd (set_embeddings 7 (new_service example_settings)))
    = (Ok {| collection_name := "notes"; embedding := 7; store_oid := 0 |},
       s2) ∧
    _vectorstore s2
    = Some {| collection_name := "notes"; embedding := 7; store_oid := 0 |}.
Proof.
  exact (@set_embeddings_rebuilds (listing []) (new_service example_settings)
           7 (Some "notes") eq_refl).
Defined.

Lemma delete_collection_cache_witness :
  let s := snd (set_embeddings 7 (new_service example_settings)) in
  let s1 := snd (@get_vectorstore (listing []) (Some "notes") None s) in
  let s2 := snd (@delete_collection (listing []) "notes" s1) in
  @get_vectorstore (listing []) (Some "notes") None s2
  = (Ok {| collection_name := "notes"; embedding := 7; store_oid := 0 |},
     s2).
Proof.
  cbn zeta.
  exact (@delete_collection_cache (listing [])
           (snd (set_embeddings 7 (new_service example_settings))) _ "notes"
           _ eq_refl eq_refl).
Defined.

End QdrantServiceExamples.

(** ** The Ollama service *)

Section OllamaService.
Import Rag Ollama.
Context `{G : Gateways}.

(** X19. [generate]: an empty [system] text is the same as none; in
    streaming mode no empty string is yielded and the strings yielded,
    joined, are the contents of the chunks, joined (only empty chunks
    are dropped); in batch mode a run that ends normally yielded exactly
    the response, also when it is empty. *)
Theorem generate_yields (prompt : string) (system : option string) :
  (∀ stream, generate prompt (Some "") stream = generate prompt None stream) ∧
  (∀ messages yielded outcome,
     generate prompt system true = (messages, yielded, outcome) →
     ("" ∉ yielded) ∧
     String.concat "" yielded
     = String.concat "" (fst (chat_astream messages))) ∧
  (∀ messages yielded,
     generate prompt system false = (messages, yielded, Ok tt) →
     ∃ response, chat_ainvoke messages = Ok response ∧ yielded = [response]).
Proof.
  split; [done|]. split.
  - intros messages yielded outcome. unfold generate.
    destruct (chat_astream _) as [chunks failure] eqn:Hstream.
    intros [= <- <- _]. rewrite Hstream. cbn [fst]. split.
    + intros Hin. by apply list_elem_of_filter in Hin as [Hne _].
    + apply concat_nonempty.
  - intros messages yielded. unfold generate.
    destruct (chat_ainvoke _) as [response|e] eqn:Hinvoke; [|done].
    intros [= <- <-]. eauto.
Qed.

End OllamaService.

(** ** [POST /chat/sync] *)

Section ChatSyncRoute.
Import Routes ChatSync.
Context `{G : Rag.Gateways} `{P : Pydantic}.

Lemma chat_sync_query_eq (settings : Settings) (request : ChatRequest) :
  chat_sync_query settings request
  = Rag.query settings (message request) false (include_sources request)
      None "similarity" None.
Proof. reflexivity. Qed.

Lemma source_dict_no_id (s : Rag.Source) : source_dict s !! "id" = None.
Proof.
  unfold source_dict.
  rewrite !lookup_insert_ne by done. by apply lookup_singleton_ne.
Qed.

Lemma validate_sources_Ok (srcs : list Rag.Source) (vs : list Source) :
  validate_sources (map source_dict srcs) = Ok vs → srcs = [] ∧ vs = [].
Proof.
  destruct srcs as [|s srcs]; cbn; [by intros [= <-]|].
  unfold validate_source. by rewrite source_dict_no_id.
Qed.

(** X20. [chat_sync] never returns a response that carries sources: the
    dicts [query] yields have no ["id"] key, which [Source] requires,
    so whatever pydantic accepts otherwise, a response is only built
    from an empty list. *)
Theorem chat_sync_never_returns_sources (settings : Settings)
    (request : ChatRequest) (r : ChatResponse) :
  chat_sync settings request = Ok r → sources r = [].
Proof.
  unfold chat_sync.
  destruct (snd (chat_sync_query settings request)); [|done].
  destruct (accumulate _ "" []) as [response_text srcs].
  destruct (validate_sources (map source_dict srcs)) as [vs|e] eqn:Hvalid;
    [|done].
  apply validate_sources_Ok in Hvalid as [_ ->]. by intros [= <-].
Qed.

(** X21. When every collaborator answers, [chat_sync] raises pydantic's
    validation error (a [ValueError]) as soon as sources were asked for
    and a document was retrieved; otherwise it returns the model's
    response with no sources and the conversation id of the request. *)
Theorem chat_sync_outcome (settings : Settings) (request : ChatRequest)
    (docs : list Rag.Document) (answer : string) :
  let retriever :=
    {| Rag.search_type := "similarity";
       Rag.search_k := RETRIEVAL_K settings |} in
  Rag.get_vectorstore = Ok tt →
  Rag.as_retriever retriever = Ok tt →
  Rag.retriever_invoke retriever (message request) = Ok docs →
  Rag.chat_ainvoke
    (Rag.qa_format_messages (Rag._format_docs docs) (message request) [])
  = Ok answer →
  if include_sources request && negb (bool_decide (docs = []))
  then ∃ msg, chat_sync settings request = Raise (ValueError msg)
  else chat_sync settings request
       = Ok {| response := answer; sources := [];
               conversation_id := Routes.conversation_id request |}.
Proof.
  intros retriever Hstore Hretriever Hdocs Hanswer. subst retriever.
  unfold chat_sync. rewrite chat_sync_query_eq.
  unfold Rag.query, Rag.get_retriever, Rag.calling, Rag.yield, Rag.events.
  change (int_or None (RETRIEVAL_K settings)) with (RETRIEVAL_K settings).
  rewrite Hstore, Hretriever.
  cbn [mbind Rag.Run_bind mret Rag.Run_ret app fst snd].
  rewrite Hdocs.
  cbn [mbind Rag.Run_bind mret Rag.Run_ret app fst snd].
  rewrite Hanswer.
  destruct (include_sources request);
    cbn [mbind Rag.Run_bind mret Rag.Run_ret app fst snd omap accumulate
         andb option_bind].
  - destruct docs as [|doc docs]; cbn; [done|].
    unfold validate_source. rewrite source_dict_no_id. eauto.
  - done.
Qed.

End ChatSyncRoute.

Section ChatSyncRouteExamples.
Import Chunking(example_settings).
Import Routes ChatSync.

(** A pydantic that accepts nothing. *)
Definition strict : Pydantic :=
  {| coerce_source := λ _, Raise (ValueError "sources: invalid") |}.

Lemma chat_sync_never_returns_sources_witness :
  ∃ r,
    @chat_sync Rag.example_gateways strict example_settings
      {| message := "What is the capital of France?";
         Routes.conversation_id := None; include_sources := false;
         filters := None |}
    = Ok r ∧ sources r = [].
Proof.
  exists {| response := "Paris"; sources := []; conversation_id := None |}.
  split; [reflexivity|].
  exact (@chat_sync_never_returns_sources Rag.example_gateways strict
           example_settings
           {| message := "What is the capital of France?";
              Routes.conversation_id := None; include_sources := false;
              filters := None |}
           _ eq_refl).
Defined.

Lemma chat_sync_outcome_witness :
  ∃ msg,
    @chat_sync Rag.example_gateways strict example_settings
      {| message := "What is the capital of France?";
         Routes.conversation_id := None; include_sources := true;
         filters := None |}
    = Raise (ValueError msg).
Proof.
  exact (@chat_sync_outcome Rag.example_gateways strict example_settings
           {| message := "What is the capital of France?";
              Routes.conversation_id := None; include_sources := true;
              filters := None |}
           [Rag.paris] "Paris" eq_refl eq_refl eq_refl eq_refl).
Defined.

End ChatSyncRouteExamples.
